(** * SMWCentral Kaizo archiver: a shallow embedding of
      [smwcentral-kaizo-archiver.py] and the properties of its pipeline.

    The development follows the script top-down as far as its pure parts go
    and models everything outside the interpreter (HTTP, the file system,
    [zipfile], the FLIPS subprocess) as oracles of an abstract world whose
    state is threaded through every call.

    Conventions.
    - A Python [str] is a list of Unicode code points ([N]); [lit] turns an
      ASCII literal of the script into such a list.
    - A Python [bytes] is a [list byte].
    - Paths follow [posixpath] (the script is a POSIX shell script: shebang,
      default tool path [./flips]).
    - [time.sleep] has no effect on values and is left out.  Logger calls are
      modelled in [patch_bps_file], the one place where a property speaks of
      what is logged; elsewhere they influence neither results nor control
      flow and are left out. *)

From Stdlib Require Import Strings.Byte Strings.Ascii Strings.String.
From Stdlib Require Import Numbers.DecimalString.
From Stdlib Require Import NArith ZArith Bool Lia List.
Import ListNotations.
Local Open Scope list_scope.

(* ------------------------------------------------------------------ *)
(** ** Python strings *)

Module PyStr.

Definition char := N.
Definition str := list char.

(** An ASCII literal of the script as a [str]. *)
Definition lit (s : string) : str :=
  map N_of_ascii (list_ascii_of_string s).
Arguments lit s%_string.

Definition str_eqb (a b : str) : bool :=
  if list_eq_dec N.eq_dec a b then true else false.

Fixpoint starts_with (p s : str) : bool :=
  match p, s with
  | [], _ => true
  | _ :: _, [] => false
  | a :: p', b :: s' => N.eqb a b && starts_with p' s'
  end.

(** [s.endswith(p)] *)
Definition ends_with (s p : str) : bool :=
  starts_with (rev p) (rev s).

(** [s.find(old)], [None] standing for -1. *)
Fixpoint find (old s : str) : option nat :=
  if starts_with old s then Some 0
  else match s with
       | [] => None
       | _ :: t => option_map S (find old t)
       end.

(** [old in s] *)
Definition contains (s old : str) : bool :=
  match find old s with Some _ => true | None => false end.

(** The scan of [str.replace] for a non-empty [old]: left to right, each
    occurrence found is replaced and the scan resumes right after it
    ([skip] counts the characters of the occurrence still to be passed). *)
Fixpoint replace_scan (old new : str) (skip : nat) (s : str) : str :=
  match s with
  | [] => []
  | c :: t =>
      match skip with
      | S k => replace_scan old new k t
      | O => if starts_with old s
             then new ++ replace_scan old new (length old - 1) t
             else c :: replace_scan old new 0 t
      end
  end.

(** [s.replace(old, new)].  With an empty [old] Python inserts [new] before
    every character and at the end. *)
Definition replace (s old new : str) : str :=
  match old with
  | [] => new ++ flat_map (fun c => c :: new) s
  | _ :: _ => replace_scan old new 0 s
  end.

(** [sep.join(parts)] *)
Fixpoint join (sep : str) (parts : list str) : str :=
  match parts with
  | [] => []
  | [p] => p
  | p :: rest => p ++ sep ++ join sep rest
  end.

(** [s.split(sep)[-1]] for a one-character separator: what follows the last
    separator, the whole string when there is none. *)
Fixpoint last_segment (sep : char) (s : str) : str :=
  match s with
  | [] => []
  | c :: t =>
      if N.eqb c sep then last_segment sep t
      else if existsb (N.eqb sep) t then last_segment sep t
      else s
  end.

(** [Py_UNICODE_ISSPACE], which both [str.strip] and the regular expression
    class [\s] (on [str] patterns) use. *)
Definition isspace (c : char) : bool :=
  ((9 <=? c) && (c <=? 13) || (28 <=? c) && (c <=? 32)
   || (c =? 133) || (c =? 160) || (c =? 5760)
   || (8192 <=? c) && (c <=? 8202)
   || (c =? 8232) || (c =? 8233) || (c =? 8239) || (c =? 8287)
   || (c =? 12288))%N.

Fixpoint lstrip (s : str) : str :=
  match s with
  | [] => []
  | c :: t => if isspace c then lstrip t else s
  end.

(** [s.strip()] *)
Definition strip (s : str) : str :=
  rev (lstrip (rev (lstrip s))).

(** [str.lower] on the ASCII letters.  The script lower-cases only to test
    for the suffix [.bps]; no code point other than [B], [P], [S] has a
    lower-case form containing one of [.], [b], [p], [s], and the only code
    point whose lower-case form is longer than one character (U+0130) ends
    in U+0307, so the suffix test cannot tell this function from the full
    Unicode mapping. *)
Definition lower_char (c : char) : char :=
  if ((65 <=? c) && (c <=? 90))%N then (c + 32)%N else c.

Definition lower (s : str) : str := map lower_char s.

(** [s[:stop]] for an [int]: a stop below zero counts from the end, and a
    stop beyond either end of the string is brought back to it. *)
Definition slice_to (s : str) (stop : Z) : str :=
  if (0 <=? stop)%Z then firstn (Z.to_nat stop) s
  else firstn (length s - Z.to_nat (- stop)) s.

End PyStr.
Import PyStr.

(* ------------------------------------------------------------------ *)
(** ** [sanitize_filename] *)

(** The character class of the first substitution: the double quote (code
    point 34) and the characters [< > : / \ | ? *]. *)
Definition is_illegal (c : char) : bool :=
  existsb (N.eqb c) (34%N :: lit "<>:/\|?*").

(** The class [[_\s]] of the second substitution. *)
Definition is_blank (c : char) : bool :=
  (c =? 95)%N || isspace c.

(** [re.sub(r'[_\s]+', ' ', s)]: every maximal run becomes one space. *)
Fixpoint collapse_runs (in_run : bool) (s : str) : str :=
  match s with
  | [] => []
  | c :: t =>
      if is_blank c
      then (if in_run then collapse_runs true t
            else 32%N :: collapse_runs true t)
      else c :: collapse_runs false t
  end.

Definition sanitize_filename (filename : str) : str :=
  let filename := map (fun c => if is_illegal c then 95%N else c) filename in
  let filename := replace (replace filename [10%N] [32%N]) [13%N] [32%N] in
  strip (collapse_runs false filename).

(* ------------------------------------------------------------------ *)
(** ** [urllib.parse.unquote] *)

Module UrlLib.

Definition hex_value (c : char) : option N :=
  if ((48 <=? c) && (c <=? 57))%N then Some (c - 48)%N
  else if ((65 <=? c) && (c <=? 70))%N then Some (c - 55)%N
  else if ((97 <=? c) && (c <=? 102))%N then Some (c - 87)%N
  else None.

(** [unquote_to_bytes] on an ASCII run: a [%] followed by two hexadecimal
    digits is one byte, any other character (a lone [%] too) is itself. *)
Fixpoint unquote_to_bytes (s : str) : list N :=
  match s with
  | [] => []
  | c :: t =>
      if (c =? 37)%N then
        match t with
        | h :: l :: t' =>
            match hex_value h, hex_value l with
            | Some a, Some b => (16 * a + b)%N :: unquote_to_bytes t'
            | _, _ => c :: unquote_to_bytes t
            end
        | _ => c :: unquote_to_bytes t
        end
      else c :: unquote_to_bytes t
  end.

Definition is_cont (b : N) : bool := ((128 <=? b) && (b <=? 191))%N.

(** The range of the second byte after the lead byte [b0] of a sequence of
    three or four bytes (Unicode, table 3-7). *)
Definition second_ok (b0 b1 : N) : bool :=
  (if b0 =? 224 then (160 <=? b1) && (b1 <=? 191)
   else if b0 =? 237 then (128 <=? b1) && (b1 <=? 159)
   else if b0 =? 240 then (144 <=? b1) && (b1 <=? 191)
   else if b0 =? 244 then (128 <=? b1) && (b1 <=? 143)
   else is_cont b1)%N.

Definition replacement : char := 65533%N.

(** [bytes.decode('utf-8', 'replace')]: each ill-formed sequence, cut at
    the first byte that cannot continue it, becomes one U+FFFD and decoding
    resumes at that byte. *)
Fixpoint utf8_decode (bs : list N) : str :=
  match bs with
  | [] => []
  | b0 :: t0 =>
      if (b0 <? 128)%N then b0 :: utf8_decode t0
      else if ((194 <=? b0) && (b0 <=? 223))%N then
        match t0 with
        | b1 :: t1 =>
            if is_cont b1
            then ((b0 - 192) * 64 + (b1 - 128))%N :: utf8_decode t1
            else replacement :: utf8_decode t0
        | [] => replacement :: utf8_decode t0
        end
      else if ((224 <=? b0) && (b0 <=? 239))%N then
        match t0 with
        | b1 :: t1 =>
            if second_ok b0 b1 then
              match t1 with
              | b2 :: t2 =>
                  if is_cont b2
                  then ((b0 - 224) * 4096 + (b1 - 128) * 64 + (b2 - 128))%N
                       :: utf8_decode t2
                  else replacement :: utf8_decode t1
              | [] => replacement :: utf8_decode t1
              end
            else replacement :: utf8_decode t0
        | [] => replacement :: utf8_decode t0
        end
      else if ((240 <=? b0) && (b0 <=? 244))%N then
        match t0 with
        | b1 :: t1 =>
            if second_ok b0 b1 then
              match t1 with
              | b2 :: t2 =>
                  if is_cont b2 then
                    match t2 with
                    | b3 :: t3 =>
                        if is_cont b3
                        then ((b0 - 240) * 262144 + (b1 - 128) * 4096
                              + (b2 - 128) * 64 + (b3 - 128))%N
                             :: utf8_decode t3
                        else replacement :: utf8_decode t2
                    | [] => replacement :: utf8_decode t2
                    end
                  else replacement :: utf8_decode t1
              | [] => replacement :: utf8_decode t1
              end
            else replacement :: utf8_decode t0
        | [] => replacement :: utf8_decode t0
        end
      else replacement :: utf8_decode t0
  end.

(** The maximal ASCII runs of the string are unquoted and decoded one by
    one; the code points above 127 between them are kept as they are.
    [run] holds the current ASCII run, reversed. *)
Fixpoint unquote_runs (run : str) (s : str) : str :=
  match s with
  | [] => utf8_decode (unquote_to_bytes (rev run))
  | c :: t =>
      if (c <? 128)%N then unquote_runs (c :: run) t
      else utf8_decode (unquote_to_bytes (rev run)) ++ c :: unquote_runs [] t
  end.

(** [urllib.parse.unquote(s)] with its defaults (UTF-8, [errors='replace']). *)
Definition unquote (s : str) : str :=
  if existsb (N.eqb 37) s then unquote_runs [] s else s.

End UrlLib.

(* ------------------------------------------------------------------ *)
(** ** [os.path] (POSIX) *)

Module OsPath.

(** [os.path.join(a, b)] *)
Definition join (a b : str) : str :=
  if starts_with [47%N] b then b
  else if match a with [] => true | _ => ends_with a [47%N] end then a ++ b
  else a ++ 47%N :: b.

(** [os.path.basename(p)] *)
Definition basename (p : str) : str := last_segment 47%N p.

End OsPath.

(* ------------------------------------------------------------------ *)
(** ** [hashlib.md5] (RFC 1321) and [get_short_hash] *)

Module Md5.

Local Open Scope N_scope.

Definition w32 (x : N) : N := x mod 4294967296.

Definition rotl (x c : N) : N :=
  w32 (N.lor (N.shiftl x c) (N.shiftr x (32 - c))).

Definition not32 (x : N) : N := N.lxor x 4294967295.

Definition shifts : list N :=
  [7; 12; 17; 22; 7; 12; 17; 22; 7; 12; 17; 22; 7; 12; 17; 22;
   5; 9; 14; 20; 5; 9; 14; 20; 5; 9; 14; 20; 5; 9; 14; 20;
   4; 11; 16; 23; 4; 11; 16; 23; 4; 11; 16; 23; 4; 11; 16; 23;
   6; 10; 15; 21; 6; 10; 15; 21; 6; 10; 15; 21; 6; 10; 15; 21].

(** [floor (2^32 * abs (sin (i + 1)))] for [i] from 0 to 63. *)
Definition sines : list N :=
  [3614090360; 3905402710; 606105819; 3250441966;
   4118548399; 1200080426; 2821735955; 4249261313;
   1770035416; 2336552879; 4294925233; 2304563134;
   1804603682; 4254626195; 2792965006; 1236535329;
   4129170786; 3225465664; 643717713; 3921069994;
   3593408605; 38016083; 3634488961; 3889429448;
   568446438; 3275163606; 4107603335; 1163531501;
   2850285829; 4243563512; 1735328473; 2368359562;
   4294588738; 2272392833; 1839030562; 4259657740;
   2763975236; 1272893353; 4139469664; 3200236656;
   681279174; 3936430074; 3572445317; 76029189;
   3654602809; 3873151461; 530742520; 3299628645;
   4096336452; 1126891415; 2878612391; 4237533241;
   1700485571; 2399980690; 4293915773; 2240044497;
   1873313359; 4264355552; 2734768916; 1309151649;
   4149444226; 3174756917; 718787259; 3951481745].

(** [n] bytes of [x], least significant first. *)
Fixpoint le_bytes (n : nat) (x : N) : list N :=
  match n with
  | O => []
  | S k => x mod 256 :: le_bytes k (x / 256)
  end.

Fixpoint le_word (bs : list N) : N :=
  match bs with
  | [] => 0
  | b :: t => b + 256 * le_word t
  end.

(** The message followed by the bit 1, zeros up to 56 modulo 64, and the
    length in bits as 64 bits. *)
Definition pad (msg : list N) : list N :=
  let len := N.of_nat (length msg) in
  let zeros := (55 + 64 - len mod 64) mod 64 in
  msg ++ 128 :: repeat 0 (N.to_nat zeros) ++ le_bytes 8 ((8 * len) mod 2 ^ 64).

Fixpoint words (n : nat) (bs : list N) : list N :=
  match n with
  | O => []
  | S k => le_word (firstn 4 bs) :: words k (skipn 4 bs)
  end.

Fixpoint blocks (n : nat) (bs : list N) : list (list N) :=
  match n with
  | O => []
  | S k => words 16 (firstn 64 bs) :: blocks k (skipn 64 bs)
  end.

Definition state := (N * N * N * N)%type.

Definition round (m : list N) (i : N) (st : state) : state :=
  let '(a, b, c, d) := st in
  let '(f, g) :=
    if i <? 16 then (N.lor (N.land b c) (N.land (not32 b) d), i)
    else if i <? 32 then
      (N.lor (N.land d b) (N.land (not32 d) c), (5 * i + 1) mod 16)
    else if i <? 48 then (N.lxor (N.lxor b c) d, (3 * i + 5) mod 16)
    else (N.lxor c (N.lor b (not32 d)), (7 * i) mod 16) in
  let k := nth (N.to_nat i) sines 0 in
  let s := nth (N.to_nat i) shifts 0 in
  let x := w32 (a + f + k + nth (N.to_nat g) m 0) in
  (d, w32 (b + rotl x s), b, c).

Definition process (st : state) (m : list N) : state :=
  let '(a0, b0, c0, d0) := st in
  let '(a, b, c, d) :=
    fold_left (fun s i => round m (N.of_nat i) s) (seq 0 64) st in
  (w32 (a0 + a), w32 (b0 + b), w32 (c0 + c), w32 (d0 + d)).

Definition init : state := (1732584193, 4023233417, 2562383102, 271733878).

Definition digest (msg : list N) : list N :=
  let p := pad msg in
  let '(a, b, c, d) :=
    fold_left process (blocks (length p / 64) p) init in
  le_bytes 4 a ++ le_bytes 4 b ++ le_bytes 4 c ++ le_bytes 4 d.

Definition hex_digit (n : N) : char :=
  if n <? 10 then 48 + n else 87 + n.

(** [hashlib.md5(data).hexdigest()] *)
Definition hexdigest (data : list byte) : str :=
  flat_map (fun b => [hex_digit (b / 16); hex_digit (b mod 16)])
           (digest (map Byte.to_N data)).

End Md5.

(** [get_short_hash(data, length=6)], for any [int] as [length]. *)
Definition get_short_hash (data : list byte) (length : Z) : str :=
  slice_to (Md5.hexdigest data) length.
Arguments get_short_hash data length%_Z.

(* ------------------------------------------------------------------ *)
(** ** Python values decoded from JSON *)

(** What [response.json()] can return.  A [float] is represented by whether
    it is non-zero: its truth value and its type are all the script can
    observe of one.  An object is an association list in which the first
    binding of a key is the one that counts. *)
#[local] Set Warnings "-register-all".
Inductive json : Type :=
| JNull
| JBool (b : bool)
| JInt (n : Z)
| JFloat (nonzero : bool)
| JStr (s : str)
| JArr (l : list json)
| JObj (kv : list (str * json)).

(** Truth value of a Python object, as tested by [if x:] and [while x:]. *)
Definition truthy (v : json) : bool :=
  match v with
  | JNull => false
  | JBool b => b
  | JInt n => negb (n =? 0)%Z
  | JFloat nz => nz
  | JStr s => negb (str_eqb s [])
  | JArr l => match l with [] => false | _ => true end
  | JObj kv => match kv with [] => false | _ => true end
  end.

(** [type(v).__name__] *)
Definition type_name (v : json) : str :=
  match v with
  | JNull => lit "NoneType"
  | JBool _ => lit "bool"
  | JInt _ => lit "int"
  | JFloat _ => lit "float"
  | JStr _ => lit "str"
  | JArr _ => lit "list"
  | JObj _ => lit "dict"
  end.

Fixpoint lookup (key : str) (kv : list (str * json)) : option json :=
  match kv with
  | [] => None
  | (k, v) :: rest => if str_eqb k key then Some v else lookup key rest
  end.

(** [d.get(key, default)]; [None] when [d] is not a [dict] and the call
    raises [AttributeError]. *)
Definition dict_get (d : json) (key : str) (default : json) : option json :=
  match d with
  | JObj kv =>
      Some (match lookup key kv with Some v => v | None => default end)
  | _ => None
  end.

(** The keys of a dictionary, in insertion order. *)
Fixpoint dict_keys (seen : list str) (kv : list (str * json)) : list str :=
  match kv with
  | [] => []
  | (k, _) :: rest =>
      if existsb (str_eqb k) seen then dict_keys seen rest
      else k :: dict_keys (k :: seen) rest
  end.

(** The elements that iterating over [v] yields; [None] when [v] is not
    iterable ([TypeError]). *)
Definition py_iter (v : json) : option (list json) :=
  match v with
  | JArr l => Some l
  | JStr s => Some (map (fun c => JStr [c]) s)
  | JObj kv => Some (map JStr (dict_keys [] kv))
  | _ => None
  end.

(** [str(n)] for an [int]. *)
Definition str_of_int (n : Z) : str :=
  lit (DecimalString.NilZero.string_of_int (Z.to_int n)).

(* ------------------------------------------------------------------ *)
(** ** Exceptions and the outside world *)

(** The handlers of the script tell [zipfile.BadZipFile] from every other
    [Exception]; [msg] is [str(e)]. *)
Inductive exn : Type :=
| BadZipFile (msg : str)
| Error (msg : str).

Definition exn_str (e : exn) : str :=
  match e with BadZipFile m | Error m => m end.

Inductive res (A : Type) : Type :=
| Ok (a : A)
| Raise (e : exn).
Arguments Ok {A} a.
Arguments Raise {A} e.

(** A [requests.Response], as far as the script reads it. *)
Record response : Type := Response {
  status_code : Z;
  json_body : res json          (* [response.json()] *)
}.

(** A [subprocess.CompletedProcess]. *)
Record completed : Type := Completed {
  returncode : Z;
  stderr : str
}.

(** The calls that leave the interpreter.  [W] is the state of the world
    (remote servers, file system); every call may change it and may raise. *)
Class World (W : Type) : Type := {
  (** [requests.get(url, ...)] *)
  requests_get : json -> W -> res response * W;
  (** [with open(path, 'wb') as f: for chunk in resp.iter_content(...): ...]:
      the body of the response just received is streamed into [path]. *)
  save_stream : str -> W -> res unit * W;
  (** [zipfile.ZipFile(path, 'r')] followed by [namelist()] *)
  zip_namelist : str -> W -> res (list str) * W;
  (** [zip_ref.read(member)] on the archive opened from [path] *)
  zip_read : str -> str -> W -> res (list byte) * W;
  (** [with open(path, 'wb') as f: f.write(data)] *)
  write_file : str -> list byte -> W -> res unit * W;
  (** [subprocess.run(cmd, capture_output=True, text=True)] *)
  subprocess_run : list str -> W -> res completed * W
}.

(* ------------------------------------------------------------------ *)
(** ** The records of the script *)

(** The [result] dictionary of [download_and_extract_bps]. *)
Record fetch_result : Type := FetchResult {
  success : bool;
  download_success : bool;
  bps_count : nat;
  bps_files : list str;
  error : option str;
  requires_login : bool
}.

Definition initial_result : fetch_result :=
  FetchResult false false 0 [] None false.

(** [result[key] = value], key by key. *)
Definition set_success (b : bool) (r : fetch_result) : fetch_result :=
  FetchResult b (download_success r) (bps_count r) (bps_files r) (error r)
    (requires_login r).
Definition set_download_success (b : bool) (r : fetch_result) : fetch_result :=
  FetchResult (success r) b (bps_count r) (bps_files r) (error r)
    (requires_login r).
Definition set_bps_count (n : nat) (r : fetch_result) : fetch_result :=
  FetchResult (success r) (download_success r) n (bps_files r) (error r)
    (requires_login r).
Definition set_bps_files (l : list str) (r : fetch_result) : fetch_result :=
  FetchResult (success r) (download_success r) (bps_count r) l (error r)
    (requires_login r).
Definition set_error (e : str) (r : fetch_result) : fetch_result :=
  FetchResult (success r) (download_success r) (bps_count r) (bps_files r)
    (Some e) (requires_login r).
Definition set_requires_login (b : bool) (r : fetch_result) : fetch_result :=
  FetchResult (success r) (download_success r) (bps_count r) (bps_files r)
    (error r) b.

(** The per-difficulty [stats] dictionary of [main]. *)
Module Stats.

Record login_required_hack : Type := LoginRequiredHack {
  name : json;
  authors : str;
  url : json
}.

Record failed_hack : Type := FailedHack {
  failed_name : json;
  failed_error : option str
}.

Record t : Type := Make {
  total_hacks : nat;
  downloaded : nat;
  failed_downloads : nat;
  requires_login : nat;
  total_bps : nat;
  patched : nat;
  failed_patches : nat;
  login_required_hacks : list login_required_hack;
  failed_hacks : list failed_hack
}.

Definition initial : t := Make 0 0 0 0 0 0 0 [] [].

(** [stats[key] += n] and [stats[key].append(x)], key by key. *)
Definition add_total_hacks (n : nat) (s : t) : t :=
  Make (total_hacks s + n) (downloaded s) (failed_downloads s)
    (requires_login s) (total_bps s) (patched s) (failed_patches s)
    (login_required_hacks s) (failed_hacks s).
Definition add_downloaded (n : nat) (s : t) : t :=
  Make (total_hacks s) (downloaded s + n) (failed_downloads s)
    (requires_login s) (total_bps s) (patched s) (failed_patches s)
    (login_required_hacks s) (failed_hacks s).
Definition add_failed_downloads (n : nat) (s : t) : t :=
  Make (total_hacks s) (downloaded s) (failed_downloads s + n)
    (requires_login s) (total_bps s) (patched s) (failed_patches s)
    (login_required_hacks s) (failed_hacks s).
Definition add_requires_login (n : nat) (s : t) : t :=
  Make (total_hacks s) (downloaded s) (failed_downloads s)
    (requires_login s + n) (total_bps s) (patched s) (failed_patches s)
    (login_required_hacks s) (failed_hacks s).
Definition add_total_bps (n : nat) (s : t) : t :=
  Make (total_hacks s) (downloaded s) (failed_downloads s)
    (requires_login s) (total_bps s + n) (patched s) (failed_patches s)
    (login_required_hacks s) (failed_hacks s).
Definition add_patched (n : nat) (s : t) : t :=
  Make (total_hacks s) (downloaded s) (failed_downloads s)
    (requires_login s) (total_bps s) (patched s + n) (failed_patches s)
    (login_required_hacks s) (failed_hacks s).
Definition add_failed_patches (n : nat) (s : t) : t :=
  Make (total_hacks s) (downloaded s) (failed_downloads s)
    (requires_login s) (total_bps s) (patched s) (failed_patches s + n)
    (login_required_hacks s) (failed_hacks s).
Definition append_login_required (h : login_required_hack) (s : t) : t :=
  Make (total_hacks s) (downloaded s) (failed_downloads s)
    (requires_login s) (total_bps s) (patched s) (failed_patches s)
    (login_required_hacks s ++ [h]) (failed_hacks s).
Definition append_failed (h : failed_hack) (s : t) : t :=
  Make (total_hacks s) (downloaded s) (failed_downloads s)
    (requires_login s) (total_bps s) (patched s) (failed_patches s)
    (login_required_hacks s) (failed_hacks s ++ [h]).

End Stats.

(** Records of the logger. *)
Inductive level : Type := DEBUG | INFO | WARNING | ERROR.
Definition log_record : Type := (level * str)%type.

(* ------------------------------------------------------------------ *)
(** ** [fetch_all_data] *)

Section Pipeline.

Context {W : Type} `{World W}.

(** The [while next_url:] loop.  Each iteration makes one request; [fuel]
    bounds the number of iterations and [None] is returned when it runs
    out (a catalog whose pages link in a cycle never lets the loop end).
    Every [break], from the [else] branch as from the handler, leaves the
    loop with the items accumulated so far. *)
Fixpoint fetch_pages (fuel : nat) (next_url : json) (all_items : list json)
  (w : W) : option (list json) * W :=
  if truthy next_url then
    match fuel with
    | O => (None, w)
    | S fuel' =>
        let '(r, w1) := requests_get next_url w in
        match r with
        | Raise _ => (Some all_items, w1)
        | Ok response =>
            if (status_code response =? 200)%Z then
              match json_body response with
              | Raise _ => (Some all_items, w1)
              | Ok data =>
                  match dict_get data (lit "data") (JArr []) with
                  | None => (Some all_items, w1)
                  | Some items =>
                      match py_iter items with
                      | None => (Some all_items, w1)
                      | Some l =>
                          match dict_get data (lit "next_page_url") JNull with
                          | None => (Some (all_items ++ l), w1)
                          | Some next =>
                              fetch_pages fuel' next (all_items ++ l) w1
                          end
                      end
                  end
              end
            else (Some all_items, w1)
        end
    end
  else (Some all_items, w).

Definition fetch_all_data (fuel : nat) (initial_url : str) (w : W)
  : option (list json) * W :=
  fetch_pages fuel (JStr initial_url) [] w.

(* ------------------------------------------------------------------ *)
(** ** [format_filename] *)

(** [sanitize_filename(v)] on a value not known to be a string: [re.sub]
    raises [TypeError] on anything else. *)
Definition sanitize_value (v : json) : option str :=
  match v with
  | JStr s => Some (sanitize_filename s)
  | _ => None
  end.

Definition unknown : json := JStr (lit "Unknown").

(** [[sanitize_filename(author.get("name", "Unknown")) for author in authors]] *)
Fixpoint sanitized_author_names (authors : list json) : option (list str) :=
  match authors with
  | [] => Some []
  | author :: rest =>
      match dict_get author (lit "name") unknown with
      | None => None
      | Some v =>
          match sanitize_value v with
          | None => None
          | Some n =>
              match sanitized_author_names rest with
              | None => None
              | Some ns => Some (n :: ns)
              end
          end
      end
  end.

Definition authors_field (item_data : json) : option str :=
  match dict_get item_data (lit "authors") (JArr []) with
  | None => None
  | Some authors =>
      if truthy authors then
        match py_iter authors with
        | None => None
        | Some l =>
            match sanitized_author_names l with
            | None => None
            | Some author_names => Some (join (lit " & ") author_names)
            end
        end
      else Some (lit "Unknown")
  end.

(** [sanitize_filename(d.get(key, "Unknown"))] *)
Definition text_field (d : json) (key : str) : option str :=
  match dict_get d key unknown with
  | None => None
  | Some v => sanitize_value v
  end.

(** The body of the [try]; [None] when it raises. *)
Definition format_filename_try (item_data : json) (original_filename : str)
  : option str :=
  match text_field item_data (lit "name") with
  | None => None
  | Some name =>
  match authors_field item_data with
  | None => None
  | Some authors_str =>
  match dict_get item_data (lit "fields") (JObj []) with
  | None => None
  | Some fields =>
  match text_field fields (lit "type") with
  | None => None
  | Some hack_type =>
  match text_field fields (lit "difficulty") with
  | None => None
  | Some difficulty =>
  match text_field fields (lit "length") with
  | None => None
  | Some length =>
      let decoded_original := UrlLib.unquote original_filename in
      Some (join (lit " - ")
              [name; authors_str; hack_type; difficulty; length;
               decoded_original])
  end end end end end end.

Definition format_filename (item_data : json) (original_filename : str)
  : str :=
  match format_filename_try item_data original_filename with
  | Some s => s
  | None => sanitize_filename (UrlLib.unquote original_filename)
  end.

(* ------------------------------------------------------------------ *)
(** ** [download_and_extract_bps] *)

Definition is_bps_member (m : str) : bool :=
  ends_with (lower m) (lit ".bps").

(** The name under which a member is written. *)
Definition new_bps_name (single : bool) (base_name decoded_filename : str)
  (bps_content : list byte) : str :=
  if single then
    replace base_name decoded_filename
      (replace decoded_filename (lit ".zip") (lit ".bps"))
  else
    let hash_suffix := get_short_hash bps_content 6 in
    replace base_name decoded_filename
      (replace decoded_filename (lit ".zip")
         (lit "_" ++ hash_suffix ++ lit ".bps")).

(** The [for idx, member in enumerate(bps_members)] loop.  [files] is
    [result['bps_files']], which grows as members are written; when a read
    or a write raises, the loop is left with the paths appended so far. *)
Fixpoint extract_members (single : bool)
  (base_name decoded_filename zip_path bps_dir : str)
  (members : list str) (files : list str) (w : W)
  : res unit * list str * W :=
  match members with
  | [] => (Ok tt, files, w)
  | member :: rest =>
      let '(r, w1) := zip_read zip_path member w in
      match r with
      | Raise e => (Raise e, files, w1)
      | Ok bps_content =>
          let bps_path :=
            OsPath.join bps_dir
              (new_bps_name single base_name decoded_filename bps_content) in
          let '(r', w2) := write_file bps_path bps_content w1 in
          match r' with
          | Raise e => (Raise e, files, w2)
          | Ok _ =>
              extract_members single base_name decoded_filename zip_path
                bps_dir rest (files ++ [bps_path]) w2
          end
      end
  end.

(** What the two inner handlers store in [result['error']]. *)
Definition extraction_error (e : exn) : str :=
  match e with
  | BadZipFile _ => lit "Invalid ZIP file"
  | Error msg => lit "Extraction error: " ++ msg
  end.

Definition processing_error (msg : str) : str :=
  lit "Processing error: " ++ msg.

Definition download_and_extract_bps (item_data download_url : json)
  (zip_dir bps_dir : str) (w : W) : fetch_result * W :=
  let result := initial_result in
  match download_url with
  | JStr url =>
      let original_filename := last_segment 47%N url in
      let decoded_filename := UrlLib.unquote original_filename in
      let base_name := format_filename item_data original_filename in
      let zip_path := OsPath.join zip_dir decoded_filename in
      let '(r, w1) := requests_get download_url w in
      match r with
      | Raise e => (set_error (processing_error (exn_str e)) result, w1)
      | Ok resp =>
          if (status_code resp =? 403)%Z then
            let result := set_requires_login true result in
            let result :=
              set_error (lit "Requires login (age verification)") result in
            (result, w1)
          else if negb (status_code resp =? 200)%Z then
            (set_error (lit "HTTP " ++ str_of_int (status_code resp)) result,
             w1)
          else
            let '(saved, w2) := save_stream zip_path w1 in
            match saved with
            | Raise e => (set_error (processing_error (exn_str e)) result, w2)
            | Ok _ =>
                let result := set_download_success true result in
                let '(opened, w3) := zip_namelist zip_path w2 in
                match opened with
                | Raise e => (set_error (extraction_error e) result, w3)
                | Ok namelist =>
                    let bps_members := filter is_bps_member namelist in
                    match bps_members with
                    | [] => (set_success true result, w3)
                    | _ :: _ =>
                        let '(r, files, w4) :=
                          extract_members
                            (Nat.eqb (length bps_members) 1)
                            base_name decoded_filename zip_path bps_dir
                            bps_members (bps_files result) w3 in
                        let result := set_bps_files files result in
                        match r with
                        | Ok _ =>
                            let result :=
                              set_bps_count (length (bps_files result))
                                result in
                            (set_success true result, w4)
                        | Raise e =>
                            (set_error (extraction_error e) result, w4)
                        end
                    end
                end
            end
      end
  | _ =>
      (* [download_url.split] raises [AttributeError] *)
      (set_error
         (processing_error
            (lit "'" ++ type_name download_url
             ++ lit "' object has no attribute 'split'")) result, w)
  end.

(* ------------------------------------------------------------------ *)
(** ** [patch_bps_file] *)

(** The command line handed to [subprocess.run]. *)
Definition patch_command (bps_path patched_dir flips_path clean_rom : str)
  : list str :=
  let bps_filename := OsPath.basename bps_path in
  let output_filename := replace bps_filename (lit ".bps") (lit ".smc") in
  let output_path := OsPath.join patched_dir output_filename in
  [flips_path; lit "-a"; bps_path; clean_rom; output_path].

(** Returns the boolean of the script together with the records it logs. *)
Definition patch_bps_file (bps_path patched_dir flips_path clean_rom : str)
  (w : W) : bool * list log_record * W :=
  let bps_filename := OsPath.basename bps_path in
  let cmd := patch_command bps_path patched_dir flips_path clean_rom in
  let log := [(DEBUG, lit "Patching: " ++ bps_filename)] in
  let '(r, w1) := subprocess_run cmd w in
  match r with
  | Ok result =>
      if (returncode result =? 0)%Z then
        (true,
         log ++ [(DEBUG, lit "Successfully patched: " ++ bps_filename)], w1)
      else
        (false,
         log ++ [(ERROR, lit "Failed to patch " ++ bps_filename ++ lit ": "
                         ++ stderr result)], w1)
  | Raise e =>
      (false,
       log ++ [(ERROR, lit "Error patching " ++ bps_path ++ lit ": "
                       ++ exn_str e)], w1)
  end.

(* ------------------------------------------------------------------ *)
(** ** The item loop of [main] *)

(** [" & ".join(names)]: [TypeError] unless every element is a [str]. *)
Fixpoint all_strings (names : list json) : option (list str) :=
  match names with
  | [] => Some []
  | JStr s :: rest =>
      match all_strings rest with
      | Some l => Some (s :: l)
      | None => None
      end
  | _ :: _ => None
  end.

(** [[author.get("name", "Unknown") for author in authors]] *)
Fixpoint author_name_values (authors : list json) : option (list json) :=
  match authors with
  | [] => Some []
  | author :: rest =>
      match dict_get author (lit "name") unknown with
      | None => None
      | Some v =>
          match author_name_values rest with
          | Some l => Some (v :: l)
          | None => None
          end
      end
  end.

(** [author_names] of the loop body; [None] when computing it raises. *)
Definition author_names_of (authors : json) : option str :=
  match py_iter authors with
  | None => None
  | Some l =>
      match author_name_values l with
      | None => None
      | Some vs =>
          match all_strings vs with
          | None => None
          | Some names => Some (join (lit " & ") names)
          end
      end
  end.

(** [for bps_file in result['bps_files']], counting
    [(patches_success, patches_failed)]. *)
Fixpoint patch_files (files : list str) (patched_dir flips clean_rom : str)
  (patches_success patches_failed : nat) (w : W) : nat * nat * W :=
  match files with
  | [] => (patches_success, patches_failed, w)
  | bps_file :: rest =>
      let '(ok, _, w1) := patch_bps_file bps_file patched_dir flips clean_rom w in
      if ok
      then patch_files rest patched_dir flips clean_rom
             (patches_success + 1) patches_failed w1
      else patch_files rest patched_dir flips clean_rom
             patches_success (patches_failed + 1) w1
  end.

(** One iteration of [for idx, item in enumerate(all_items, 1)].  Nothing in
    [main] catches an exception, so one raised here ends the whole run:
    [None]. *)
Definition process_item (zip_dir bps_dir patched_dir flips clean_rom : str)
  (stats : Stats.t) (item : json) (w : W) : option Stats.t * W :=
  match dict_get item (lit "name") unknown with
  | None => (None, w)
  | Some hack_name =>
  match dict_get item (lit "download_url") JNull with
  | None => (None, w)
  | Some download_url =>
      if negb (truthy download_url) then (Some stats, w)
      else
        let stats := Stats.add_total_hacks 1 stats in
        match dict_get item (lit "authors") (JArr []) with
        | None => (None, w)
        | Some authors =>
        match author_names_of authors with
        | None => (None, w)
        | Some author_names =>
            let '(result, w1) :=
              download_and_extract_bps item download_url zip_dir bps_dir w in
            if requires_login result then
              let stats := Stats.add_requires_login 1 stats in
              let stats :=
                Stats.append_login_required
                  (Stats.LoginRequiredHack hack_name author_names
                     download_url) stats in
              (Some stats, w1)
            else if negb (download_success result) then
              let stats := Stats.add_failed_downloads 1 stats in
              let stats :=
                Stats.append_failed
                  (Stats.FailedHack hack_name (error result)) stats in
              (Some stats, w1)
            else
              let stats := Stats.add_downloaded 1 stats in
              let stats := Stats.add_total_bps (bps_count result) stats in
              let '(patches_success, patches_failed, w2) :=
                patch_files (bps_files result) patched_dir flips clean_rom
                  0 0 w1 in
              let stats := Stats.add_patched patches_success stats in
              let stats := Stats.add_failed_patches patches_failed stats in
              (Some stats, w2)
        end end
  end end.

(** The whole loop over [all_items]. *)
Fixpoint process_items (zip_dir bps_dir patched_dir flips clean_rom : str)
  (stats : Stats.t) (all_items : list json) (w : W) : option Stats.t * W :=
  match all_items with
  | [] => (Some stats, w)
  | item :: rest =>
      let '(r, w1) :=
        process_item zip_dir bps_dir patched_dir flips clean_rom stats item w in
      match r with
      | None => (None, w1)
      | Some stats' =>
          process_items zip_dir bps_dir patched_dir flips clean_rom stats'
            rest w1
      end
  end.

End Pipeline.

(* ------------------------------------------------------------------ *)
(** ** Simulated worlds *)

(** A world given by fixed reply tables; its state is the list of the calls
    made so far, oldest first. *)
Module Sim.

Inductive call : Type :=
| Get (url : json)
| Save (path : str)
| Namelist (path : str)
| Read (path member : str)
| Write (path : str) (data : list byte)
| Run (cmd : list str).

Record replies : Type := Replies {
  on_get : json -> res response;
  on_save : str -> res unit;
  on_namelist : str -> res (list str);
  on_read : str -> str -> res (list byte);
  on_write : str -> list byte -> res unit;
  on_run : list str -> res completed
}.

Definition world (t : replies) : World (list call) := {|
  requests_get url w := (on_get t url, w ++ [Get url]);
  save_stream path w := (on_save t path, w ++ [Save path]);
  zip_namelist path w := (on_namelist t path, w ++ [Namelist path]);
  zip_read path member w := (on_read t path member, w ++ [Read path member]);
  write_file path data w := (on_write t path data, w ++ [Write path data]);
  subprocess_run cmd w := (on_run t cmd, w ++ [Run cmd])
|}.

(** A server that answers every request with [status] and no JSON body. *)
Definition status_only (status : Z) : json -> res response :=
  fun _ => Ok (Response status (Raise (Error (lit "no JSON body")))).

(** A world in which every file operation succeeds, the archive downloaded
    has the members [members] and the patch tool exits with [exit_code]. *)
Definition archive_world (status : Z) (members : list (str * res (list byte)))
  (exit_code : Z) : replies := {|
  on_get := status_only status;
  on_save := fun _ => Ok tt;
  on_namelist := fun _ => Ok (map fst members);
  on_read := fun _ member =>
    match List.find (fun m => str_eqb (fst m) member) (rev members) with
    | Some m => snd m
    | None => Raise (Error (lit "There is no item named in the archive"))
    end;
  on_write := fun _ _ => Ok tt;
  on_run := fun _ => Ok (Completed exit_code [])
|}.

(** The same world, except that the patch tool cannot be started. *)
Definition tool_not_started (t : replies) (msg : str) : replies := {|
  on_get := on_get t;
  on_save := on_save t;
  on_namelist := on_namelist t;
  on_read := on_read t;
  on_write := on_write t;
  on_run := fun _ => Raise (Error msg)
|}.

(** A catalog server: the pages it answers, by URL; any other request is
    answered with status 500. *)
Definition catalog (pages : list (str * json)) : replies := {|
  on_get := fun url =>
    match url with
    | JStr u =>
        match List.find (fun p => str_eqb (fst p) u) pages with
        | Some p => Ok (Response 200 (Ok (snd p)))
        | None => status_only 500 url
        end
    | _ => Raise (Error (lit "Invalid URL"))
    end;
  on_save := fun _ => Ok tt;
  on_namelist := fun _ => Ok [];
  on_read := fun _ _ => Raise (Error (lit "no archive"));
  on_write := fun _ _ => Ok tt;
  on_run := fun _ => Ok (Completed 0 [])
|}.

End Sim.

(** Concrete inputs on which the statements below are exercised. *)
Module Scenario.

Definition zip_dir : str := lit "out/zips".
Definition bps_dir : str := lit "out/bps".
Definition patched_dir : str := lit "out/patched".
Definition flips : str := lit "./flips".
Definition clean_rom : str := lit "clean.smc".

Definition hack (name author url : str) : json :=
  JObj [(lit "name", JStr name);
        (lit "authors", JArr [JObj [(lit "name", JStr author)]]);
        (lit "fields", JObj [(lit "type", JStr (lit "Kaizo"));
                             (lit "difficulty", JStr (lit "Newcomer"))]);
        (lit "download_url", JStr url)].

Definition url1 : str := lit "https://dl.example.net/1/first%20hack.zip".
Definition url2 : str := lit "https://dl.example.net/2/second.zip".
Definition item1 : json := hack (lit "First Hack") (lit "Ann") url1.
Definition item2 : json := hack (lit "Second") (lit "Bob") url2.

(** An archive with one patch and a text file. *)
Definition one_patch : list (str * res (list byte)) :=
  [(lit "readme.txt", Ok [x61]); (lit "patch.BPS", Ok [x42; x50; x53; x31])].

(** Two patches and a text file. *)
Definition two_patches : list (str * res (list byte)) :=
  [(lit "a.bps", Ok [x01; x02]); (lit "notes.txt", Ok [x61]);
   (lit "extra/b.Bps", Ok [x01; x03])].

(** Two members with the same bytes. *)
Definition same_bytes : list (str * res (list byte)) :=
  [(lit "hack.bps", Ok [x01; x02]); (lit "backup/hack.bps", Ok [x01; x02])].

(** Two patches, the second of which fails its CRC check when read. *)
Definition second_corrupt : list (str * res (list byte)) :=
  [(lit "a.bps", Ok [x01; x02]);
   (lit "b.bps", Raise (BadZipFile (lit "Bad CRC-32 for file 'b.bps'")))].

(** An archive without any patch. *)
Definition no_patch : list (str * res (list byte)) :=
  [(lit "readme.txt", Ok [x61]); (lit "hack.ips", Ok [x50])].

(** A download that is not a zip archive. *)
Definition not_a_zip : Sim.replies := {|
  Sim.on_get := Sim.status_only 200;
  Sim.on_save := fun _ => Ok tt;
  Sim.on_namelist := fun _ => Raise (BadZipFile (lit "File is not a zip file"));
  Sim.on_read := fun _ _ => Raise (Error (lit "no archive"));
  Sim.on_write := fun _ _ => Ok tt;
  Sim.on_run := fun _ => Ok (Completed 0 [])
|}.

(** A hack whose name contains [.bps], and the path of its patch. *)
Definition url3 : str := lit "https://dl.example.net/3/cool.zip".
Definition item3 : json := hack (lit "Cool.bps Hack") (lit "Cy") url3.
Definition cool_patch : str :=
  lit "out/bps/Cool.bps Hack - Cy - Kaizo - Newcomer - Unknown - cool.bps".

(** A download whose URL does not end in a name with [.zip]. *)
Definition url4 : str := lit "https://dl.example.net/download?id=4".
Definition item4 : json := hack (lit "Fourth") (lit "Di") url4.

(** A world that serves [url1] first and answers 403 from the second
    request on. *)
Definition first_then_denied : World (list Sim.call) :=
  let t := Sim.archive_world 200 one_patch 0 in {|
  requests_get url w :=
    (match w with
     | [] => Sim.on_get t url
     | _ :: _ => Sim.status_only 403 url
     end, w ++ [Sim.Get url]);
  save_stream path w := (Sim.on_save t path, w ++ [Sim.Save path]);
  zip_namelist path w := (Sim.on_namelist t path, w ++ [Sim.Namelist path]);
  zip_read path member w :=
    (Sim.on_read t path member, w ++ [Sim.Read path member]);
  write_file path data w :=
    (Sim.on_write t path data, w ++ [Sim.Write path data]);
  subprocess_run cmd w := (Sim.on_run t cmd, w ++ [Sim.Run cmd])
|}.

(** A catalog of two pages, the second linking to a page that the server
    does not have. *)
Definition two_pages : Sim.replies :=
  Sim.catalog
    [(lit "https://catalog.example.net/list",
      JObj [(lit "data", JArr [item1; item2]);
            (lit "next_page_url",
             JStr (lit "https://catalog.example.net/list?n=2"))]);
     (lit "https://catalog.example.net/list?n=2",
      JObj [(lit "data", JArr [JInt 3]);
            (lit "next_page_url",
             JStr (lit "https://catalog.example.net/list?n=3"))])].

(** The archive with two patches on a disk that is full once the first
    patch is written: the write of the second one raises. *)
Definition disk_full : Sim.replies :=
  let t := Sim.archive_world 200 two_patches 0 in {|
  Sim.on_get := Sim.on_get t;
  Sim.on_save := Sim.on_save t;
  Sim.on_namelist := Sim.on_namelist t;
  Sim.on_read := Sim.on_read t;
  Sim.on_write := fun path _ =>
    if ends_with path (lit "_706acf.bps")
    then Raise (Error (lit "[Errno 28] No space left on device"))
    else Ok tt;
  Sim.on_run := Sim.on_run t
|}.

(** A catalog whose second page is not JSON. *)
Definition broken_catalog : Sim.replies := {|
  Sim.on_get := fun url =>
    match url with
    | JStr u =>
        if str_eqb u (lit "https://catalog.example.net/list") then
          Ok (Response 200
                (Ok (JObj [(lit "data", JArr [item1; item2]);
                           (lit "next_page_url",
                            JStr (lit "https://catalog.example.net/list?n=2"))])))
        else
          Ok (Response 200
                (Raise (Error (lit "Expecting value: line 1 column 1 (char 0)"))))
    | _ => Raise (Error (lit "Invalid URL"))
    end;
  Sim.on_save := fun _ => Ok tt;
  Sim.on_namelist := fun _ => Ok [];
  Sim.on_read := fun _ _ => Raise (Error (lit "no archive"));
  Sim.on_write := fun _ _ => Ok tt;
  Sim.on_run := fun _ => Ok (Completed 0 [])
|}.

(** A catalog whose only page names itself as the next page. *)
Definition looping_catalog : Sim.replies :=
  Sim.catalog
    [(lit "https://catalog.example.net/list",
      JObj [(lit "data", JArr [item1]);
            (lit "next_page_url",
             JStr (lit "https://catalog.example.net/list"))])].

(** A server that cannot be reached. *)
Definition unreachable : Sim.replies := {|
  Sim.on_get := fun _ => Raise (Error (lit "Connection refused"));
  Sim.on_save := fun _ => Ok tt;
  Sim.on_namelist := fun _ => Ok [];
  Sim.on_read := fun _ _ => Raise (Error (lit "no archive"));
  Sim.on_write := fun _ _ => Ok tt;
  Sim.on_run := fun _ => Ok (Completed 0 [])
|}.

(** An entry whose download URL is a number, and one whose authors are
    null. *)
Definition numbered : json :=
  JObj [(lit "name", JStr (lit "Numbered"));
        (lit "authors", JArr [JObj [(lit "name", JStr (lit "Eve"))]]);
        (lit "download_url", JInt 5)].

Definition anonymous : json :=
  JObj [(lit "name", JStr (lit "Anonymous"));
        (lit "authors", JNull);
        (lit "download_url", JStr url2)].

End Scenario.

(* ------------------------------------------------------------------ *)
(** ** Vocabulary of the statements *)

Section Vocabulary.

Context {W : Type} `{World W}.

(** The names [download_and_extract_bps] derives from its arguments. *)
Definition decoded_filename_of (url : str) : str :=
  UrlLib.unquote (last_segment 47%N url).

Definition base_name_of (item_data : json) (url : str) : str :=
  format_filename item_data (last_segment 47%N url).

Definition zip_path_of (zip_dir url : str) : str :=
  OsPath.join zip_dir (decoded_filename_of url).

(** The request for [url] was answered with status 200 and the body was
    saved; the world is then [w2]. *)
Definition downloaded_in (zip_dir url : str) (w w2 : W) : Prop :=
  exists resp w1,
    requests_get (JStr url) w = (Ok resp, w1)
    /\ status_code resp = 200%Z
    /\ save_stream (zip_path_of zip_dir url) w1 = (Ok tt, w2).

(** Runs that perform the reads and writes of an extraction without an
    exception: [extracted ... members w contents w'] holds when reading and
    writing [members] one after the other from world [w] succeeds, yields
    the byte strings [contents] and leaves the world in [w']. *)
Inductive extracted (single : bool)
  (base_name decoded_filename zip_path bps_dir : str)
  : list str -> W -> list (list byte) -> W -> Prop :=
| extracted_nil : forall w,
    extracted single base_name decoded_filename zip_path bps_dir [] w [] w
| extracted_cons : forall member rest w w1 w2 w3 content contents,
    zip_read zip_path member w = (Ok content, w1) ->
    write_file
      (OsPath.join bps_dir
         (new_bps_name single base_name decoded_filename content))
      content w1 = (Ok tt, w2) ->
    extracted single base_name decoded_filename zip_path bps_dir
      rest w2 contents w3 ->
    extracted single base_name decoded_filename zip_path bps_dir
      (member :: rest) w (content :: contents) w3.

(** The paths under which members with the given contents are written. *)
Definition paths_of (single : bool) (base_name decoded_filename bps_dir : str)
  (contents : list (list byte)) : list str :=
  map (fun c => OsPath.join bps_dir
                  (new_bps_name single base_name decoded_filename c))
      contents.

(** The catalog serves the pages [pages] one after the other, starting
    with the request for [url] in world [w]: each request is answered with
    status 200 and a JSON object whose [data] is the array of the page's
    items, and whose [next_page_url] (null when absent) is the cursor
    requested next.  [url'] is the cursor of the last page and [w'] the
    world after it. *)
Inductive served : json -> W -> list (list json) -> json -> W -> Prop :=
| served_none : forall url w, served url w [] url w
| served_page : forall url w resp data items next w1 pages url' w',
    truthy url = true ->
    requests_get url w = (Ok resp, w1) ->
    status_code resp = 200%Z ->
    json_body resp = Ok data ->
    dict_get data (lit "data") (JArr []) = Some (JArr items) ->
    dict_get data (lit "next_page_url") JNull = Some next ->
    served next w1 pages url' w' ->
    served url w (items :: pages) url' w'.

(** How pagination comes to its end at cursor [url] in world [w]: the
    cursor is absent (null or empty), or the request for it raises, or it
    is answered with a status other than 200.  [w'] is the world then. *)
Inductive stops : json -> W -> W -> Prop :=
| stops_no_cursor : forall url w,
    truthy url = false -> stops url w w
| stops_request_fails : forall url w e w',
    truthy url = true ->
    requests_get url w = (Raise e, w') -> stops url w w'
| stops_bad_status : forall url w resp w',
    truthy url = true ->
    requests_get url w = (Ok resp, w') ->
    status_code resp <> 200%Z -> stops url w w'.

(** The log holds an error record that ends in the standard-error text of
    the process that [cmd] ran. *)
Definition stderr_logged (cmd : list str) (w : W) (log : list log_record)
  : Prop :=
  exists result w1,
    subprocess_run cmd w = (Ok result, w1)
    /\ exists text, In (ERROR, text ++ stderr result) log.

End Vocabulary.

(** [name] with its suffix [.bps] replaced by [.smc] (the name itself when
    it has no such suffix). *)
Definition with_smc_suffix (name : str) : str :=
  if ends_with name (lit ".bps")
  then firstn (length name - 4) name ++ lit ".smc"
  else name.

(** [item] is an object of the catalog with a non-empty string as download
    URL: [hack_name] is its name (the placeholder when absent) and
    [author_names] the names of its authors joined, which [main] computes
    before downloading. *)
Definition listed_item (item hack_name : json) (url author_names : str)
  : Prop :=
  dict_get item (lit "name") unknown = Some hack_name
  /\ dict_get item (lit "download_url") JNull = Some (JStr url)
  /\ url <> []
  /\ exists authors,
      dict_get item (lit "authors") (JArr []) = Some authors
      /\ author_names_of authors = Some author_names.

(** *** Catalog metadata *)

(** [key] is absent from the object ([None]) or bound to a string. *)
Definition optional_string (kv : list (str * json)) (key : str)
  (o : option str) : Prop :=
  lookup key kv = option_map JStr o.

(** The text that stands for such a field in a composite name: the
    sanitized string, and the placeholder when the field is absent. *)
Definition shown (o : option str) : str :=
  match o with
  | Some s => sanitize_filename s
  | None => lit "Unknown"
  end.

(** [authors] is absent, or an array of objects whose [name] is absent or
    a string; [names] lists the names in order. *)
Inductive authors_are (kv : list (str * json)) : list (option str) -> Prop :=
| authors_absent :
    lookup (lit "authors") kv = None -> authors_are kv []
| authors_listed : forall akvs names,
    lookup (lit "authors") kv = Some (JArr (map JObj akvs)) ->
    Forall2 (fun akv n => optional_string akv (lit "name") n) akvs names ->
    authors_are kv names.

Definition authors_text (names : list (option str)) : str :=
  match names with
  | [] => lit "Unknown"
  | _ :: _ => join (lit " & ") (map shown names)
  end.

(** [fields] is absent, or an object whose [type], [difficulty] and
    [length] are each absent or a string. *)
Inductive fields_are (kv : list (str * json))
  : option str -> option str -> option str -> Prop :=
| fields_absent :
    lookup (lit "fields") kv = None -> fields_are kv None None None
| fields_present : forall fkv hack_type difficulty length,
    lookup (lit "fields") kv = Some (JObj fkv) ->
    optional_string fkv (lit "type") hack_type ->
    optional_string fkv (lit "difficulty") difficulty ->
    optional_string fkv (lit "length") length ->
    fields_are kv hack_type difficulty length.

(** *** File names *)

(** A decimal digit or a letter from [a] to [f]. *)
Definition is_lower_hex (c : char) : Prop :=
  (48 <= c <= 57)%N \/ (97 <= c <= 102)%N.

(* ------------------------------------------------------------------ *)
(** ** [build_endpoint_url] and the endpoints of [main] *)

Definition BASE_URL : str :=
  lit "https://www.smwcentral.net/ajax.php?a=getsectionlist&s=smwhacks".

Definition DIFFICULTY_MAP : list (str * (str * str)) :=
  [(lit "newcomer", (lit "diff_1", lit "Newcomer"));
   (lit "casual", (lit "diff_2", lit "Casual"));
   (lit "intermediate", (lit "diff_3", lit "Intermediate"));
   (lit "advanced", (lit "diff_4", lit "Advanced"));
   (lit "expert", (lit "diff_5", lit "Expert"));
   (lit "master", (lit "diff_6", lit "Master"));
   (lit "grandmaster", (lit "diff_7", lit "Grandmaster"))].

(** [build_endpoint_url(difficulty_code=None, is_awaiting=False)]; the
    f-string prints an absent code as [None]. *)
Definition build_endpoint_url (difficulty_code : option str)
  (is_awaiting : bool) : str :=
  if is_awaiting then BASE_URL ++ lit "&u=1&f[type][]=kaizo"
  else
    BASE_URL ++ lit "&f[difficulty][]="
    ++ match difficulty_code with Some code => code | None => lit "None" end
    ++ lit "&f[type][]=kaizo".

(** The flags of the namespace [parse_args] returns. *)
Module Args.

Record t : Type := Make {
  all : bool;
  newcomer : bool;
  casual : bool;
  intermediate : bool;
  advanced : bool;
  expert : bool;
  master : bool;
  grandmaster : bool;
  awaiting : bool
}.

End Args.

(** [getattr(args, key)] on the flags; [None] when there is no such
    attribute ([AttributeError]). *)
Definition getattr (args : Args.t) (key : str) : option bool :=
  if str_eqb key (lit "all") then Some (Args.all args)
  else if str_eqb key (lit "newcomer") then Some (Args.newcomer args)
  else if str_eqb key (lit "casual") then Some (Args.casual args)
  else if str_eqb key (lit "intermediate") then Some (Args.intermediate args)
  else if str_eqb key (lit "advanced") then Some (Args.advanced args)
  else if str_eqb key (lit "expert") then Some (Args.expert args)
  else if str_eqb key (lit "master") then Some (Args.master args)
  else if str_eqb key (lit "grandmaster") then Some (Args.grandmaster args)
  else if str_eqb key (lit "awaiting") then Some (Args.awaiting args)
  else None.

(** The loop of the [else] branch: the entries of the map whose flag is
    set.  The labels are ASCII, on which [lower] is [str.lower]. *)
Fixpoint flagged_endpoints (args : Args.t)
  (entries : list (str * (str * str))) : option (list (str * str)) :=
  match entries with
  | [] => Some []
  | (key, (diff_code, label)) :: rest =>
      match getattr args key with
      | None => None
      | Some selected =>
          match flagged_endpoints args rest with
          | None => None
          | Some endpoints =>
              Some (if selected
                    then (build_endpoint_url (Some diff_code) false,
                          lower label) :: endpoints
                    else endpoints)
          end
      end
  end.

(** The list [endpoints] of [main], pairs of a URL and a label, as it is
    when [main] tests it for emptiness; [None] if building it raises. *)
Definition select_endpoints (args : Args.t) : option (list (str * str)) :=
  let by_difficulty :=
    if Args.all args then
      Some (map (fun '(key, (diff_code, label)) =>
                   (build_endpoint_url (Some diff_code) false, lower label))
              DIFFICULTY_MAP)
    else flagged_endpoints args DIFFICULTY_MAP in
  match by_difficulty with
  | None => None
  | Some endpoints =>
      Some (if Args.awaiting args
            then endpoints ++ [(build_endpoint_url None true, lit "awaiting")]
            else endpoints)
  end.

(* ------------------------------------------------------------------ *)
(** ** The folders of a partition *)

(** The paths [main] computes for one endpoint: [base_dir] is the absolute
    base directory and [date_str] the date of the run. *)
Module Layout.

Record t : Type := Make {
  main_path : str;
  zip_dir : str;
  bps_dir : str;
  patched_dir : str;
  json_path : str
}.

Definition main_folder (difficulty_label date_str : str) : str :=
  lit "smwcentral-kaizo-archive-" ++ difficulty_label ++ lit "-" ++ date_str.

Definition paths (base_dir difficulty_label date_str : str) : t :=
  let main_folder := main_folder difficulty_label date_str in
  let main_path := OsPath.join base_dir main_folder in
  Make main_path
    (OsPath.join main_path (main_folder ++ lit "-zips"))
    (OsPath.join main_path (main_folder ++ lit "-bps"))
    (OsPath.join main_path (main_folder ++ lit "-patched"))
    (OsPath.join main_path (main_folder ++ lit "-data.json")).

End Layout.

(* ------------------------------------------------------------------ *)
(** ** Further vocabulary *)

(** Sanitized names.  [tidy after_blank s]: no character of [s] is one of
    the illegal ones, every underscore or white-space character of [s] is
    a space that follows no space, and [s] does not end in one;
    [after_blank] tells whether a space precedes [s] (or [s] is the start
    of the name, where a space may not stand either). *)
Fixpoint tidy (after_blank : bool) (s : str) : bool :=
  match s with
  | [] => negb after_blank
  | c :: t =>
      if is_blank c then (c =? 32)%N && negb after_blank && tidy true t
      else negb (is_illegal c) && tidy false t
  end.

(** [loose after_blank s] is [tidy after_blank s] without the condition on
    the end of [s]. *)
Fixpoint loose (after_blank : bool) (s : str) : bool :=
  match s with
  | [] => true
  | c :: t =>
      if is_blank c then (c =? 32)%N && negb after_blank && loose true t
      else negb (is_illegal c) && loose false t
  end.

(** The strings of [l] are pairwise different. *)
Fixpoint distinct (l : list str) : bool :=
  match l with
  | [] => true
  | s :: rest => negb (existsb (str_eqb s) rest) && distinct rest
  end.

(** All the checks on the endpoints of one set of flags, as a boolean:
    building them does not raise, labels and URLs are pairwise different,
    the list is empty exactly when no flag is set, and it has at most
    eight entries. *)
Definition endpoints_checked (args : Args.t) : bool :=
  match select_endpoints args with
  | None => false
  | Some endpoints =>
      distinct (map snd endpoints)
      && distinct (map fst endpoints)
      && Bool.eqb
           (match endpoints with [] => true | _ => false end)
           (negb (Args.all args || Args.newcomer args || Args.casual args
                  || Args.intermediate args || Args.advanced args
                  || Args.expert args || Args.master args
                  || Args.grandmaster args || Args.awaiting args))
      && (length endpoints <=? 8)
  end.

(** The empty name, or a name of legal characters and single spaces that
    neither starts nor ends with a space. *)
Definition is_clean (s : str) : bool :=
  match s with
  | [] => true
  | _ :: _ => tidy true s
  end.

Section MoreVocabulary.

Context {W : Type} `{World W}.

(** Ways in which a page answered with status 200 ends pagination at
    cursor [url]: its body is not JSON, or not an object, or its [data]
    cannot be iterated over. *)
Inductive breaks : json -> W -> W -> Prop :=
| breaks_no_json : forall url w resp e w',
    truthy url = true ->
    requests_get url w = (Ok resp, w') ->
    status_code resp = 200%Z ->
    json_body resp = Raise e ->
    breaks url w w'
| breaks_no_object : forall url w resp data w',
    truthy url = true ->
    requests_get url w = (Ok resp, w') ->
    status_code resp = 200%Z ->
    json_body resp = Ok data ->
    (forall kv, data <> JObj kv) ->
    breaks url w w'
| breaks_no_items : forall url w resp data items w',
    truthy url = true ->
    requests_get url w = (Ok resp, w') ->
    status_code resp = 200%Z ->
    json_body resp = Ok data ->
    dict_get data (lit "data") (JArr []) = Some items ->
    py_iter items = None ->
    breaks url w w'.

(** Reading or writing [member] raises [e]; the world is then [w']. *)
Inductive member_fails (single : bool)
  (base_name decoded_filename zip_path bps_dir member : str)
  : W -> exn -> W -> Prop :=
| read_fails : forall w e w',
    zip_read zip_path member w = (Raise e, w') ->
    member_fails single base_name decoded_filename zip_path bps_dir member
      w e w'
| write_fails : forall w content w1 e w',
    zip_read zip_path member w = (Ok content, w1) ->
    write_file
      (OsPath.join bps_dir
         (new_bps_name single base_name decoded_filename content))
      content w1 = (Raise e, w') ->
    member_fails single base_name decoded_filename zip_path bps_dir member
      w e w'.

End MoreVocabulary.

(** What the counters and lists of a partition keep to at every step. *)
Definition consistent (s : Stats.t) : Prop :=
  Stats.total_hacks s
  = Stats.downloaded s + Stats.failed_downloads s + Stats.requires_login s
  /\ length (Stats.login_required_hacks s) = Stats.requires_login s
  /\ length (Stats.failed_hacks s) = Stats.failed_downloads s
  /\ Stats.total_bps s <= Stats.patched s + Stats.failed_patches s.

(** Items on which the loop of [main] raises: those that are not objects,
    and the objects with a download URL whose authors cannot be joined
    (not iterable, an author that is not an object, a name that is not a
    string). *)
Definition aborting (item : json) : Prop :=
  (forall kv, item <> JObj kv)
  \/ exists kv download_url authors,
      item = JObj kv
      /\ dict_get item (lit "download_url") JNull = Some download_url
      /\ truthy download_url = true
      /\ dict_get item (lit "authors") (JArr []) = Some authors
      /\ author_names_of authors = None.

(** The item is not an object, or it is one with a download URL that
    counts as true: the items [main] does not skip. *)
Definition is_processed (item : json) : bool :=
  match dict_get item (lit "download_url") JNull with
  | Some download_url => truthy download_url
  | None => true
  end.

(* ================================================================== *)
(** * Properties *)

(** ** Strings *)

Lemma starts_with_app (p t : str) : starts_with p (p ++ t) = true.
Proof.
  induction p as [|a p IH]; cbn; [reflexivity|].
  now rewrite N.eqb_refl, IH.
Qed.

Lemma starts_with_inv (p s : str) :
  starts_with p s = true -> exists t, s = p ++ t.
Proof.
  revert s. induction p as [|a p IH]; intros s Hs; cbn in *.
  - now exists s.
  - destruct s as [|b s]; [discriminate|].
    apply andb_prop in Hs as [Hab Hs]. apply N.eqb_eq in Hab. subst b.
    destruct (IH _ Hs) as [t ->]. now exists t.
Qed.

Lemma ends_with_iff (s p : str) :
  ends_with s p = true <-> exists stem, s = stem ++ p.
Proof.
  unfold ends_with. split.
  - intros Hs. apply starts_with_inv in Hs as [t Ht].
    exists (rev t). apply (f_equal (@rev _)) in Ht.
    now rewrite rev_involutive, rev_app_distr, rev_involutive in Ht.
  - intros [stem ->]. rewrite rev_app_distr. apply starts_with_app.
Qed.

(** The member test of the extraction: the name ends in a dot followed by
    the letters b, p, s, each in either case. *)
Lemma is_bps_member_iff (m : str) :
  is_bps_member m = true
  <-> exists stem ext, m = stem ++ ext /\ lower ext = lit ".bps".
Proof.
  unfold is_bps_member. rewrite ends_with_iff. split.
  - intros [t Ht]. unfold lower in Ht.
    apply map_eq_app in Ht as (stem & ext & -> & _ & Hext).
    now exists stem, ext.
  - intros (stem & ext & -> & Hext). exists (lower stem).
    unfold lower in *. now rewrite map_app, Hext.
Qed.

Lemma replace_scan_skip old new (skipped rest : str) :
  replace_scan old new (length skipped) (skipped ++ rest)
  = replace_scan old new 0 rest.
Proof.
  induction skipped as [|c skipped IH]; cbn [length app].
  - reflexivity.
  - cbn [replace_scan]. exact IH.
Qed.

Lemma replace_scan_match old new rest :
  old <> [] ->
  replace_scan old new 0 (old ++ rest) = new ++ replace_scan old new 0 rest.
Proof.
  destruct old as [|a old']; [congruence|]. intros _.
  change ((a :: old') ++ rest) with (a :: (old' ++ rest)).
  cbn [replace_scan].
  change (a :: old' ++ rest) with ((a :: old') ++ rest).
  rewrite starts_with_app.
  replace (length (a :: old') - 1) with (length old') by (cbn; lia).
  now rewrite replace_scan_skip.
Qed.

Lemma find_replace_scan old new :
  old <> [] ->
  forall s p,
    find old s = Some p ->
    replace_scan old new 0 s
    = firstn p s ++ new ++ replace_scan old new 0 (skipn (p + length old) s).
Proof.
  intros Hold. induction s as [|c s IH]; intros p Hfind.
  - cbn in Hfind. destruct old; [congruence|discriminate].
  - cbn [find] in Hfind.
    destruct (starts_with old (c :: s)) eqn:Hstart.
    + injection Hfind as <-.
      destruct (starts_with_inv _ _ Hstart) as [t Ht]. rewrite Ht.
      rewrite (replace_scan_match _ _ _ Hold). cbn [firstn Nat.add app].
      now rewrite skipn_app, skipn_all, Nat.sub_diag.
    + destruct (find old s) as [p'|] eqn:Hs; [|discriminate].
      injection Hfind as <-.
      cbn [replace_scan]. rewrite Hstart. rewrite (IH p' eq_refl).
      reflexivity.
Qed.

Lemma find_suffix old pre : exists p, find old (pre ++ old) = Some p.
Proof.
  induction pre as [|c pre [p IH]].
  - exists 0. cbn [app]. destruct old as [|a o]; [reflexivity|].
    cbn [find]. rewrite <- (app_nil_r (a :: o)) at 2.
    now rewrite starts_with_app.
  - cbn [app find]. destruct (starts_with old (c :: pre ++ old)).
    + now exists 0.
    + rewrite IH. now exists (S p).
Qed.

Lemma replace_at_first_occurrence s old new p :
  find old s = Some p ->
  old <> [] ->
  exists back, replace s old new = firstn p s ++ new ++ back.
Proof.
  intros Hfind Hold. unfold replace. destruct old as [|a old']; [congruence|].
  rewrite (find_replace_scan _ new Hold _ _ Hfind). eauto.
Qed.

Lemma find_nonempty old s p : find old s = Some p -> old <> [] -> s <> [].
Proof.
  intros Hfind Hold ->. cbn in Hfind. destruct old; [congruence|discriminate].
Qed.

Lemma app_inj_length {A} (a b c d : list A) :
  a ++ c = b ++ d -> length a = length b -> a = b.
Proof.
  intros Heq Hlen. apply (f_equal (firstn (length a))) in Heq.
  rewrite firstn_app, firstn_all, Nat.sub_diag in Heq.
  rewrite Hlen, firstn_app, firstn_all, Nat.sub_diag in Heq.
  cbn in Heq. now rewrite !app_nil_r in Heq.
Qed.

Lemma join_same_head a c t1 t2 :
  OsPath.join a (c :: t1) = OsPath.join a (c :: t2) -> t1 = t2.
Proof.
  unfold OsPath.join. cbn [starts_with].
  destruct (47 =? c)%N; cbn [andb].
  - congruence.
  - destruct (match a with [] => true | _ :: _ => ends_with a [47%N] end);
      intros Heq; apply app_inv_head in Heq; congruence.
Qed.

Lemma le_bytes_length n x : length (Md5.le_bytes n x) = n.
Proof. revert x. induction n; intros x; cbn; auto. Qed.

Lemma le_bytes_small n x : Forall (fun b => (b < 256)%N) (Md5.le_bytes n x).
Proof.
  revert x. induction n; intros x; cbn; constructor; auto.
  now apply N.mod_lt.
Qed.

Lemma digest_bytes msg :
  length (Md5.digest msg) = 16
  /\ Forall (fun b => (b < 256)%N) (Md5.digest msg).
Proof.
  unfold Md5.digest.
  destruct (fold_left Md5.process _ Md5.init) as [[[a b] c] d].
  split.
  - now rewrite !length_app, !le_bytes_length.
  - repeat (apply Forall_app; split); apply le_bytes_small.
Qed.

Lemma hex_digit_lower n : (n < 16)%N -> is_lower_hex (Md5.hex_digit n).
Proof.
  intros Hn. unfold Md5.hex_digit, is_lower_hex.
  destruct (n <? 10)%N eqn:E; [apply N.ltb_lt in E | apply N.ltb_ge in E]; lia.
Qed.

Lemma hexdigest_shape data :
  length (Md5.hexdigest data) = 32
  /\ Forall is_lower_hex (Md5.hexdigest data).
Proof.
  unfold Md5.hexdigest.
  destruct (digest_bytes (map Byte.to_N data)) as [Hlen Hsmall].
  revert Hlen Hsmall. generalize (Md5.digest (map Byte.to_N data)) as bs.
  intros bs Hlen Hsmall. split.
  - assert (Htwice : forall l : list N,
               length (flat_map (fun b =>
                  [Md5.hex_digit (b / 16); Md5.hex_digit (b mod 16)]) l)
               = 2 * length l)
      by (induction l; cbn [flat_map length app] in *; lia).
    rewrite Htwice, Hlen. reflexivity.
  - clear Hlen. induction Hsmall as [|b bs Hb _ IH]; cbn; [constructor|].
    constructor; [|constructor; [|exact IH]]; apply hex_digit_lower.
    + apply N.Div0.div_lt_upper_bound. lia.
    + now apply N.mod_lt.
Qed.

Lemma get_short_hash_shape data :
  length (get_short_hash data 6) = 6
  /\ Forall is_lower_hex (get_short_hash data 6).
Proof.
  unfold get_short_hash.
  change (slice_to (Md5.hexdigest data) 6) with (firstn 6 (Md5.hexdigest data)).
  destruct (hexdigest_shape data) as [Hlen Hhex].
  split.
  - rewrite length_firstn, Hlen. reflexivity.
  - rewrite <- (firstn_skipn 6 (Md5.hexdigest data)) in Hhex.
    now apply Forall_app in Hhex.
Qed.

Lemma contains_find s old :
  contains s old = true -> exists p, find old s = Some p.
Proof.
  unfold contains. destruct (find old s) as [p|]; [eauto|discriminate].
Qed.

(** Replacing [.zip] in the archive name, and then the archive name in the
    base name, puts the replacement of the first [.zip] at a place that
    does not depend on the replacement. *)
Lemma replaced_name_shape base_name decoded :
  contains decoded (lit ".zip") = true ->
  contains base_name decoded = true ->
  exists front, forall suffix, exists back,
    replace base_name decoded (replace decoded (lit ".zip") suffix)
    = front ++ suffix ++ back.
Proof.
  intros Hzip Hbase.
  destruct (contains_find _ _ Hzip) as [q Hq].
  destruct (contains_find _ _ Hbase) as [p Hp].
  assert (Hdecoded : decoded <> [])
    by (apply (find_nonempty _ _ _ Hq); discriminate).
  exists (firstn p base_name ++ firstn q decoded). intros suffix.
  destruct (replace_at_first_occurrence decoded (lit ".zip") suffix q Hq)
    as [back1 ->]; [discriminate|].
  destruct (replace_at_first_occurrence base_name decoded
              (firstn q decoded ++ suffix ++ back1) p Hp Hdecoded)
    as [back2 ->].
  exists (back1 ++ back2). now rewrite <- !app_assoc.
Qed.


Lemma join_last sep parts last_part :
  exists pre, join sep (parts ++ [last_part]) = pre ++ last_part.
Proof.
  induction parts as [|a parts [pre IH]].
  - now exists [].
  - cbn [app join].
    destruct (parts ++ [last_part]) eqn:E; [now destruct parts|].
    rewrite IH. exists (a ++ sep ++ pre). now rewrite <- !app_assoc.
Qed.

Lemma composite_ends_with_decoded item_data original_filename composite :
  format_filename_try item_data original_filename = Some composite ->
  contains composite (UrlLib.unquote original_filename) = true.
Proof.
  unfold format_filename_try. intros Htry.
  repeat match type of Htry with
         | match ?x with Some _ => _ | None => _ end = _ =>
             destruct x; [|discriminate]
         end.
  match type of Htry with
  | Some (join ?sep [?a; ?b; ?c; ?d; ?e; ?f]) = _ =>
      assert (Hc : composite = join sep ([a; b; c; d; e] ++ [f]))
        by (cbn [app]; congruence);
      destruct (join_last sep [a; b; c; d; e] f) as [pre Hpre]
  end.
  rewrite Hc, Hpre. unfold contains.
  now destruct (find_suffix (UrlLib.unquote original_filename) pre) as [p ->].
Qed.

(** Two members of one archive are written to the same path exactly when
    the six-character prefixes of their hashes agree. *)
Lemma hashed_paths_agree base_name decoded bps_dir c1 c2 :
  contains decoded (lit ".zip") = true ->
  contains base_name decoded = true ->
  OsPath.join bps_dir (new_bps_name false base_name decoded c1)
  = OsPath.join bps_dir (new_bps_name false base_name decoded c2)
  <-> get_short_hash c1 6 = get_short_hash c2 6.
Proof.
  intros Hzip Hbase. split.
  - destruct (replaced_name_shape _ _ Hzip Hbase) as [front Hshape].
    unfold new_bps_name.
    destruct (Hshape (lit "_" ++ get_short_hash c1 6 ++ lit ".bps"))
      as [back1 ->].
    destruct (Hshape (lit "_" ++ get_short_hash c2 6 ++ lit ".bps"))
      as [back2 ->].
    change (lit "_") with [95%N].
    rewrite <- !app_assoc.
    rewrite !(app_assoc front [95%N]).
    destruct (front ++ [95%N]) as [|c0 front'] eqn:Hfront;
      [now destruct front|].
    cbn [app]. intros Heq. apply join_same_head, app_inv_head in Heq.
    apply (app_inj_length _ _ _ _ Heq).
    now rewrite !(proj1 (get_short_hash_shape _)).
  - unfold new_bps_name. now intros ->.
Qed.

Section Download.

Context {W : Type} `{World W}.

Variables (item_data : json) (url zip_dir bps_dir : str).

Lemma extract_members_extracted single base_name decoded zip_path members :
  forall files w contents w',
    extracted single base_name decoded zip_path bps_dir
      members w contents w' ->
    extract_members single base_name decoded zip_path bps_dir
      members files w
    = (Ok tt, files ++ paths_of single base_name decoded bps_dir contents, w')
    /\ length contents = length members.
Proof.
  induction members as [|m rest IH]; intros files w contents w' Hrun;
    inversion Hrun; subst; cbn.
  - now rewrite app_nil_r.
  - match goal with
    | Hr : zip_read _ _ _ = _, Hw : write_file _ _ _ = _ |- _ =>
        rewrite Hr, Hw
    end.
    match goal with
    | Hx : extracted _ _ _ _ _ rest _ _ _ |- _ =>
        destruct (IH (files ++ [OsPath.join bps_dir
                        (new_bps_name single base_name decoded content)])
                    _ _ _ Hx) as [E L]
    end.
    rewrite E, <- app_assoc, L. auto.
Qed.

(** What is left of [download_and_extract_bps] once the archive is saved. *)
Lemma download_after_save w w2 :
  downloaded_in zip_dir url w w2 ->
  download_and_extract_bps item_data (JStr url) zip_dir bps_dir w =
    let result := set_download_success true initial_result in
    let '(opened, w3) := zip_namelist (zip_path_of zip_dir url) w2 in
    match opened with
    | Raise e => (set_error (extraction_error e) result, w3)
    | Ok namelist =>
        let bps_members := filter is_bps_member namelist in
        match bps_members with
        | [] => (set_success true result, w3)
        | _ :: _ =>
            let '(r, files, w4) :=
              extract_members (Nat.eqb (length bps_members) 1)
                (base_name_of item_data url) (decoded_filename_of url)
                (zip_path_of zip_dir url) bps_dir bps_members [] w3 in
            let result := set_bps_files files result in
            match r with
            | Ok _ =>
                (set_success true
                   (set_bps_count (length (bps_files result)) result), w4)
            | Raise e => (set_error (extraction_error e) result, w4)
            end
        end
    end.
Proof.
  intros (resp & w1 & Hget & Hstatus & Hsave).
  unfold download_and_extract_bps.
  rewrite Hget, Hstatus. cbn [Z.eqb Pos.eqb negb].
  fold (decoded_filename_of url). fold (zip_path_of zip_dir url).
  rewrite Hsave.
  destruct (zip_namelist (zip_path_of zip_dir url) w2) as [[names|e] w3];
    reflexivity.
Qed.

(** C4: a download answered with HTTP 403 yields the outcome with the
    access-denied flag set, download-success and success false, no
    extracted file, and the fixed message that a login (age verification)
    is required; the world is left as the request left it, with nothing
    saved, opened or written. *)
Theorem access_denied_outcome (w w1 : W) (resp : response) :
  requests_get (JStr url) w = (Ok resp, w1) ->
  status_code resp = 403%Z ->
  download_and_extract_bps item_data (JStr url) zip_dir bps_dir w =
    ({| success := false;
        download_success := false;
        bps_count := 0;
        bps_files := [];
        error := Some (lit "Requires login (age verification)");
        requires_login := true |}, w1).
Proof.
  intros Hget Hstatus. unfold download_and_extract_bps.
  rewrite Hget, Hstatus. reflexivity.
Qed.

(** Whatever the arguments and the world, an outcome flagged access-denied
    is flagged neither downloaded nor successful, and a successful one is
    flagged downloaded. *)
Lemma outcome_flags (download_url : json) (w : W) :
  let r :=
    fst (download_and_extract_bps item_data download_url zip_dir bps_dir w) in
  (requires_login r = true -> download_success r = false /\ success r = false)
  /\ (success r = true -> download_success r = true).
Proof.
  unfold download_and_extract_bps.
  destruct download_url; cbn; try (split; intros; discriminate).
  destruct (requests_get _ w) as [[resp|e] w1]; cbn;
    try (split; intros; discriminate).
  destruct (status_code resp =? 403)%Z; cbn; [split; auto; discriminate|].
  destruct (status_code resp =? 200)%Z; cbn;
    try (split; intros; discriminate).
  destruct (save_stream _ w1) as [[[]|e] w2]; cbn;
    try (split; intros; discriminate).
  destruct (zip_namelist _ w2) as [[names|e] w3]; cbn;
    try (split; intros; discriminate).
  destruct (filter is_bps_member names) as [|m ms];
    cbn -[extract_members]; [split; auto; discriminate|].
  match goal with
  | |- context [extract_members ?a ?b ?c ?d ?e ?f ?g ?h] =>
      destruct (extract_members a b c d e f g h) as [[[[]|e'] files] w4]
  end; cbn; split; auto; discriminate.
Qed.

(** A successful outcome counts the paths it lists. *)
Lemma successful_outcome_count (download_url : json) (w : W) :
  let r :=
    fst (download_and_extract_bps item_data download_url zip_dir bps_dir w) in
  success r = true -> bps_count r = length (bps_files r).
Proof.
  unfold download_and_extract_bps.
  destruct download_url; cbn; try discriminate.
  destruct (requests_get _ w) as [[resp|e] w1]; cbn; try discriminate.
  destruct (status_code resp =? 403)%Z; cbn; try discriminate.
  destruct (status_code resp =? 200)%Z; cbn; try discriminate.
  destruct (save_stream _ w1) as [[[]|e] w2]; cbn; try discriminate.
  destruct (zip_namelist _ w2) as [[names|e] w3]; cbn; try discriminate.
  destruct (filter is_bps_member names) as [|m ms];
    cbn -[extract_members]; [reflexivity|].
  match goal with
  | |- context [extract_members ?a ?b ?c ?d ?e ?f ?g ?h] =>
      destruct (extract_members a b c d e f g h) as [[[[]|e'] files] w4]
  end; cbn; [reflexivity|discriminate].
Qed.

(** C9: a download answered with 200 whose archive opens and holds no
    patch member yields success and download-success true, a count of zero
    and no path; no error is recorded and the access-denied flag is false,
    whereas every access-denied outcome has download-success false: the
    three classes of outcomes differ in these two flags. *)
Theorem no_patch_members_outcome (w w2 w3 : W) (namelist : list str) :
  downloaded_in zip_dir url w w2 ->
  zip_namelist (zip_path_of zip_dir url) w2 = (Ok namelist, w3) ->
  filter is_bps_member namelist = [] ->
  download_and_extract_bps item_data (JStr url) zip_dir bps_dir w =
    ({| success := true;
        download_success := true;
        bps_count := 0;
        bps_files := [];
        error := None;
        requires_login := false |}, w3)
  /\ (forall download_url' w',
        let r' :=
          fst (download_and_extract_bps item_data download_url' zip_dir
                 bps_dir w') in
        requires_login r' = true -> download_success r' = false).
Proof.
  intros Hdl Hopen Hnone. split.
  - rewrite (download_after_save _ _ Hdl). cbn zeta.
    rewrite Hopen, Hnone. reflexivity.
  - intros d w' r' Hr. now apply (outcome_flags d w').
Qed.

(** The archive saved from [url] opens with the member names [namelist]. *)
Lemma download_of_extracted (w w2 w3 w4 : W) namelist contents :
  downloaded_in zip_dir url w w2 ->
  zip_namelist (zip_path_of zip_dir url) w2 = (Ok namelist, w3) ->
  let bps_members := filter is_bps_member namelist in
  let single := Nat.eqb (length bps_members) 1 in
  extracted single (base_name_of item_data url) (decoded_filename_of url)
    (zip_path_of zip_dir url) bps_dir bps_members w3 contents w4 ->
  download_and_extract_bps item_data (JStr url) zip_dir bps_dir w =
    ({| success := true;
        download_success := true;
        bps_count := length bps_members;
        bps_files :=
          paths_of single (base_name_of item_data url)
            (decoded_filename_of url) bps_dir contents;
        error := None;
        requires_login := false |}, w4)
  /\ length contents = length bps_members.
Proof.
  intros Hdl Hopen bps_members single Hrun.
  destruct (extract_members_extracted _ _ _ _ _ [] _ _ _ Hrun) as [E L].
  split; [|exact L].
  rewrite (download_after_save _ _ Hdl). cbn zeta. rewrite Hopen.
  fold bps_members. fold single.
  destruct bps_members as [|m ms] eqn:Hm.
  - inversion Hrun; subst. reflexivity.
  - rewrite E. cbn. unfold paths_of at 1. rewrite length_map, L. reflexivity.
Qed.

(** C8 (amended): from an archive that opens and whose patch members are
    all read and written without an exception, exactly the members whose
    name ends in [.bps], in any mix of cases, are selected, in the order
    of the archive; the outcome records one path per selected member, in
    that order, and their number as the count. *)
Theorem extraction_selects_bps_members (w w2 w3 w4 : W)
  (namelist : list str) (contents : list (list byte)) :
  downloaded_in zip_dir url w w2 ->
  zip_namelist (zip_path_of zip_dir url) w2 = (Ok namelist, w3) ->
  let bps_members := filter is_bps_member namelist in
  let single := Nat.eqb (length bps_members) 1 in
  extracted single (base_name_of item_data url) (decoded_filename_of url)
    (zip_path_of zip_dir url) bps_dir bps_members w3 contents w4 ->
  (forall m, In m bps_members
             <-> In m namelist
                 /\ exists stem ext, m = stem ++ ext /\ lower ext = lit ".bps")
  /\ download_and_extract_bps item_data (JStr url) zip_dir bps_dir w =
       ({| success := true;
           download_success := true;
           bps_count := length bps_members;
           bps_files :=
             paths_of single (base_name_of item_data url)
               (decoded_filename_of url) bps_dir contents;
           error := None;
           requires_login := false |}, w4)
  /\ length contents = length bps_members.
Proof.
  intros Hdl Hopen bps_members single Hrun. split.
  - intros m. unfold bps_members. rewrite filter_In, is_bps_member_iff.
    reflexivity.
  - exact (download_of_extracted _ _ _ _ _ _ Hdl Hopen Hrun).
Qed.

End Download.

(** ** Pagination *)

Section Pagination.

Context {W : Type} `{World W}.

Lemma fetch_pages_served url w pages url' w' :
  served url w pages url' w' ->
  forall w'' all_items fuel,
    stops url' w' w'' ->
    length pages < fuel ->
    fetch_pages fuel url all_items w = (Some (all_items ++ concat pages), w'').
Proof.
  induction 1 as [url w | url w resp data items next w1 pages url' w'
                            Htruthy Hget Hstatus Hjson Hdata Hnext _ IH];
    intros w'' all_items fuel Hstop Hfuel.
  - cbn [concat]. rewrite app_nil_r.
    destruct fuel as [|fuel]; [inversion Hfuel|].
    inversion Hstop as [u v Hu | u v e v' Hu Hget | u v resp v' Hu Hget Hst];
      subst; cbn [fetch_pages]; rewrite Hu; try reflexivity;
      rewrite Hget; try reflexivity.
    apply Z.eqb_neq in Hst. now rewrite Hst.
  - destruct fuel as [|fuel]; [inversion Hfuel|].
    cbn [fetch_pages]. rewrite Htruthy, Hget, Hstatus, Hjson, Hdata.
    cbn [Z.eqb Pos.eqb py_iter]. rewrite Hnext.
    rewrite (IH w'' (all_items ++ items) fuel Hstop).
    + cbn [concat]. now rewrite app_assoc.
    + cbn [length] in Hfuel. lia.
Qed.

(** C3: when the catalog serves a sequence of pages, [fetch_all_data]
    returns the concatenation of their [data] arrays, pages in the order
    of arrival and items in the order of their page; when the request
    after them fails or is answered with a status other than 200 (or the
    cursor is absent), the loop ends there, with no further request, and
    the items of the pages fetched before are returned. *)
Theorem fetch_all_data_concatenates_pages (initial_url : str) (w w' w'' : W)
  (pages : list (list json)) (url' : json) (fuel : nat) :
  served (JStr initial_url) w pages url' w' ->
  stops url' w' w'' ->
  length pages < fuel ->
  fetch_all_data fuel initial_url w = (Some (concat pages), w'').
Proof.
  intros Hserved Hstop Hfuel. unfold fetch_all_data.
  exact (fetch_pages_served _ _ _ _ _ Hserved w'' [] fuel Hstop Hfuel).
Qed.

End Pagination.

(** ** File names *)

Lemma text_field_shown kv key o :
  optional_string kv key o -> text_field (JObj kv) key = Some (shown o).
Proof.
  unfold optional_string, text_field, dict_get. intros ->.
  destruct o; reflexivity.
Qed.

Lemma sanitized_author_names_shown akvs names :
  Forall2 (fun akv n => optional_string akv (lit "name") n) akvs names ->
  sanitized_author_names (map JObj akvs) = Some (map shown names).
Proof.
  induction 1 as [|akv n akvs names Hn _ IH]; [reflexivity|].
  cbn [map sanitized_author_names]. rewrite IH.
  pose proof (text_field_shown _ _ _ Hn) as Ht. unfold text_field in Ht.
  destruct (dict_get (JObj akv) (lit "name") unknown); [|discriminate].
  now rewrite Ht.
Qed.

Lemma authors_field_text kv names :
  authors_are kv names -> authors_field (JObj kv) = Some (authors_text names).
Proof.
  unfold authors_field, dict_get.
  intros [Habsent | akvs names' Hlisted Hnames].
  - now rewrite Habsent.
  - rewrite Hlisted.
    pose proof (sanitized_author_names_shown _ _ Hnames) as Hs.
    destruct Hnames as [|akv n akvs names' Hn Hrest]; [reflexivity|].
    cbn [truthy map py_iter] in *. now rewrite Hs.
Qed.

(** C6: [format_filename] has a value for every metadata input.  A field
    of the metadata that is absent shows as [Unknown] in its place in the
    composite name (the others showing sanitized); the function returns
    either the composite name, or, when building it raises, the sanitized
    decoded original file name alone, which is what it returns in
    particular for metadata that is not an object. *)
Theorem format_filename_never_fails (item_data : json)
  (original_filename : str) :
  (forall kv name names hack_type difficulty length,
      item_data = JObj kv ->
      optional_string kv (lit "name") name ->
      authors_are kv names ->
      fields_are kv hack_type difficulty length ->
      format_filename item_data original_filename =
        join (lit " - ")
          [shown name; authors_text names; shown hack_type;
           shown difficulty; shown length;
           UrlLib.unquote original_filename])
  /\ ((exists composite,
         format_filename_try item_data original_filename = Some composite
         /\ format_filename item_data original_filename = composite)
      \/ (format_filename_try item_data original_filename = None
          /\ format_filename item_data original_filename =
               sanitize_filename (UrlLib.unquote original_filename)))
  /\ ((forall kv, item_data <> JObj kv) ->
      format_filename item_data original_filename =
        sanitize_filename (UrlLib.unquote original_filename)).
Proof.
  split; [|split].
  - intros kv name names hack_type difficulty length -> Hname Hauthors Hfields.
    unfold format_filename, format_filename_try.
    rewrite (text_field_shown _ _ _ Hname), (authors_field_text _ _ Hauthors).
    unfold dict_get.
    destruct Hfields as [Habsent | fkv ty d l Hpresent Hty Hd Hl].
    + rewrite Habsent. reflexivity.
    + rewrite Hpresent, (text_field_shown _ _ _ Hty),
        (text_field_shown _ _ _ Hd), (text_field_shown _ _ _ Hl).
      reflexivity.
  - unfold format_filename.
    destruct (format_filename_try item_data original_filename) as [c|];
      [left; now exists c | right; auto].
  - intros Hnot. unfold format_filename, format_filename_try, text_field.
    destruct item_data; try reflexivity. now destruct (Hnot kv).
Qed.

(** ** Names of the extracted files *)

Section Names.

Context {W : Type} `{World W}.

Variables (item_data : json) (url zip_dir bps_dir : str).

(** C1 (amended): when the extraction of an archive completes, one path is
    recorded per patch member, the file name being derived from the base
    name by replacing the decoded archive name.  With exactly one member
    the name is the base name with [.zip] turned into [.bps], whatever the
    bytes of the member: it carries no hash.  With several members, when
    the decoded archive name contains [.zip] and the base name contains the
    decoded archive name (as it does whenever the composite name is built),
    every name carries an underscore and the first six characters, lower
    case hexadecimal, of the MD5 of the member's bytes right before [.bps],
    at the same place in all names; and two members get the same path
    exactly when these six characters agree, so that members with
    different prefixes get different names and members with the same
    bytes get the same name. *)
Theorem generated_names (w w2 w3 w4 : W)
  (namelist : list str) (contents : list (list byte)) :
  downloaded_in zip_dir url w w2 ->
  zip_namelist (zip_path_of zip_dir url) w2 = (Ok namelist, w3) ->
  let bps_members := filter is_bps_member namelist in
  let single := Nat.eqb (length bps_members) 1 in
  let base_name := base_name_of item_data url in
  let decoded := decoded_filename_of url in
  extracted single base_name decoded (zip_path_of zip_dir url) bps_dir
    bps_members w3 contents w4 ->
  let result :=
    fst (download_and_extract_bps item_data (JStr url) zip_dir bps_dir w) in
  bps_files result
  = map (fun c => OsPath.join bps_dir
                    (new_bps_name single base_name decoded c)) contents
  /\ (length bps_members = 1 ->
      forall c,
        new_bps_name single base_name decoded c
        = replace base_name decoded
            (replace decoded (lit ".zip") (lit ".bps")))
  /\ (1 < length bps_members ->
      contains decoded (lit ".zip") = true ->
      contains base_name decoded = true ->
      (exists front, forall c, exists back,
          new_bps_name single base_name decoded c
          = front ++ lit "_" ++ get_short_hash c 6 ++ lit ".bps" ++ back)
      /\ (forall c, length (get_short_hash c 6) = 6
                    /\ Forall is_lower_hex (get_short_hash c 6))
      /\ (forall c1 c2,
             OsPath.join bps_dir (new_bps_name single base_name decoded c1)
             = OsPath.join bps_dir (new_bps_name single base_name decoded c2)
             <-> get_short_hash c1 6 = get_short_hash c2 6))
  /\ (format_filename_try item_data (last_segment 47%N url) <> None ->
      contains base_name decoded = true).
Proof.
  intros Hdl Hopen bps_members single base_name decoded Hrun result.
  split; [|split; [|split]].
  - unfold result.
    destruct (download_of_extracted item_data url zip_dir bps_dir
                _ _ _ _ _ _ Hdl Hopen Hrun) as [-> _].
    reflexivity.
  - intros Hone c. unfold single. rewrite Hone. reflexivity.
  - intros Hmany Hzip Hbase.
    assert (Hsingle : single = false).
    { unfold single. apply Nat.eqb_neq. lia. }
    rewrite Hsingle. split; [|split].
    + destruct (replaced_name_shape _ _ Hzip Hbase) as [front Hshape].
      exists front. intros c. unfold new_bps_name.
      destruct (Hshape (lit "_" ++ get_short_hash c 6 ++ lit ".bps"))
        as [back ->].
      exists back. now rewrite <- !app_assoc.
    + intros c. apply get_short_hash_shape.
    + intros c1 c2. now apply hashed_paths_agree.
  - intros Htry. unfold base_name, base_name_of, format_filename.
    destruct (format_filename_try item_data (last_segment 47%N url))
      as [composite|] eqn:E; [|congruence].
    exact (composite_ends_with_decoded _ _ _ E).
Qed.

End Names.

(** ** Patching *)

Section Patching.

Context {W : Type} `{World W}.

Variables (bps_path patched_dir flips_path clean_rom : str).

Lemma replace_final_suffix (stem old new : str) :
  old <> [] ->
  find old (stem ++ old) = Some (length stem) ->
  replace (stem ++ old) old new = stem ++ new.
Proof.
  intros Hold Hfind. unfold replace.
  destruct old as [|a old'] eqn:E; [congruence|]. rewrite <- E in *.
  rewrite (find_replace_scan old new Hold _ _ Hfind).
  rewrite firstn_app, firstn_all, Nat.sub_diag, <- length_app, skipn_all.
  cbn. now rewrite !app_nil_r.
Qed.

(** C2 (amended): for a patch whose file name has [.bps] as its suffix and
    nowhere else, the output path handed to the tool is that name with the
    suffix turned into [.smc], inside the patched-output directory.  The
    function returns [True] exactly when the process ran and exited with
    status zero; after a non-zero exit it returns [False] and logs the
    standard-error text of the process; when the invocation itself raises
    it returns [False] and logs the text of the exception. *)
Theorem patch_bps_file_outcome (stem : str) (w : W) :
  OsPath.basename bps_path = stem ++ lit ".bps" ->
  find (lit ".bps") (OsPath.basename bps_path) = Some (length stem) ->
  let cmd := patch_command bps_path patched_dir flips_path clean_rom in
  let run := patch_bps_file bps_path patched_dir flips_path clean_rom w in
  cmd = [flips_path; lit "-a"; bps_path; clean_rom;
         OsPath.join patched_dir (stem ++ lit ".smc")]
  /\ (fst (fst run) = true
      <-> exists result w1,
            subprocess_run cmd w = (Ok result, w1)
            /\ returncode result = 0%Z)
  /\ (forall result w1,
        subprocess_run cmd w = (Ok result, w1) ->
        returncode result <> 0%Z ->
        fst (fst run) = false
        /\ In (ERROR, lit "Failed to patch " ++ OsPath.basename bps_path
                      ++ lit ": " ++ stderr result) (snd (fst run)))
  /\ (forall e w1,
        subprocess_run cmd w = (Raise e, w1) ->
        fst (fst run) = false
        /\ In (ERROR, lit "Error patching " ++ bps_path ++ lit ": "
                      ++ exn_str e) (snd (fst run))).
Proof.
  intros Hname Hfind cmd run. split; [|split; [|split]].
  - unfold cmd, patch_command. rewrite Hname.
    rewrite replace_final_suffix; [reflexivity|discriminate|].
    now rewrite <- Hname.
  - unfold run, patch_bps_file. fold cmd.
    destruct (subprocess_run cmd w) as [[result|e] w1]; cbn.
    + destruct (returncode result =? 0)%Z eqn:E; cbn; split.
      * intros _. exists result, w1. split; [reflexivity|].
        now apply Z.eqb_eq.
      * reflexivity.
      * discriminate.
      * intros (r & v & Heq & Hzero). injection Heq as <- <-.
        apply Z.eqb_eq in Hzero. congruence.
    + split; [discriminate|]. intros (r & v & Heq & _). discriminate.
  - intros result w1 Hrun Hcode. unfold run, patch_bps_file. fold cmd.
    rewrite Hrun. apply Z.eqb_neq in Hcode. rewrite Hcode. cbn.
    split; [reflexivity|]. right. now left.
  - intros e w1 Hrun. unfold run, patch_bps_file. fold cmd.
    rewrite Hrun. cbn. split; [reflexivity|]. right. now left.
Qed.

End Patching.

(** ** The item loop *)

Section Loop.

Context {W : Type} `{World W}.

Variables (zip_dir bps_dir patched_dir flips clean_rom : str).

(** The counters [patch_files] returns add up to the number of files. *)
Lemma patch_files_count files :
  forall ok failed w,
    let '(ok', failed', _) :=
      patch_files files patched_dir flips clean_rom ok failed w in
    ok' + failed' = ok + failed + length files.
Proof.
  induction files as [|f files IH]; intros ok failed w; cbn [patch_files].
  - cbn. lia.
  - destruct (patch_bps_file f patched_dir flips clean_rom w)
      as [[[] log] w1].
    + specialize (IH (ok + 1) failed w1).
      destruct (patch_files files patched_dir flips clean_rom (ok + 1)
                  failed w1) as [[ok' failed'] w2].
      cbn [length]. lia.
    + specialize (IH ok (failed + 1) w1).
      destruct (patch_files files patched_dir flips clean_rom ok
                  (failed + 1) w1) as [[ok' failed'] w2].
      cbn [length]. lia.
Qed.

(** What an iteration does with an item that has a download URL. *)
Lemma process_item_listed item hack_name url author_names stats w :
  listed_item item hack_name url author_names ->
  process_item zip_dir bps_dir patched_dir flips clean_rom stats item w =
    let stats := Stats.add_total_hacks 1 stats in
    let '(result, w1) :=
      download_and_extract_bps item (JStr url) zip_dir bps_dir w in
    if requires_login result then
      (Some (Stats.append_login_required
               (Stats.LoginRequiredHack hack_name author_names (JStr url))
               (Stats.add_requires_login 1 stats)), w1)
    else if negb (download_success result) then
      (Some (Stats.append_failed
               (Stats.FailedHack hack_name (error result))
               (Stats.add_failed_downloads 1 stats)), w1)
    else
      let '(patches_success, patches_failed, w2) :=
        patch_files (bps_files result) patched_dir flips clean_rom 0 0 w1 in
      (Some (Stats.add_failed_patches patches_failed
               (Stats.add_patched patches_success
                  (Stats.add_total_bps (bps_count result)
                     (Stats.add_downloaded 1 stats)))), w2).
Proof.
  intros (Hname & Hurl & Hne & authors & Hauthors & Hnames).
  unfold process_item. rewrite Hname, Hurl, Hauthors, Hnames.
  assert (Htruthy : truthy (JStr url) = true).
  { unfold truthy, str_eqb.
    destruct (list_eq_dec _ _ _); [contradiction|reflexivity]. }
  rewrite Htruthy. reflexivity.
Qed.

(** An item without a download URL leaves the statistics as they are. *)
Lemma process_item_without_url item hack_name download_url stats w :
  dict_get item (lit "name") unknown = Some hack_name ->
  dict_get item (lit "download_url") JNull = Some download_url ->
  truthy download_url = false ->
  process_item zip_dir bps_dir patched_dir flips clean_rom stats item w
  = (Some stats, w).
Proof.
  intros Hname Hurl Hfalse. unfold process_item.
  now rewrite Hname, Hurl, Hfalse.
Qed.

(** An iteration that completes on an item with a download URL counts it
    once, in exactly one of the three classes. *)
Lemma process_item_classifies item stats stats' w w' :
  process_item zip_dir bps_dir patched_dir flips clean_rom stats item w
  = (Some stats', w') ->
  (stats' = stats /\ w' = w)
  \/ (Stats.total_hacks stats' = Stats.total_hacks stats + 1
      /\ Stats.requires_login stats' + Stats.failed_downloads stats'
         + Stats.downloaded stats'
         = Stats.requires_login stats + Stats.failed_downloads stats
           + Stats.downloaded stats + 1
      /\ Stats.requires_login stats <= Stats.requires_login stats'
      /\ Stats.failed_downloads stats <= Stats.failed_downloads stats'
      /\ Stats.downloaded stats <= Stats.downloaded stats').
Proof.
  unfold process_item.
  destruct (dict_get item (lit "name") unknown) as [hack_name|];
    [|discriminate].
  destruct (dict_get item (lit "download_url") JNull) as [download_url|];
    [|discriminate].
  destruct (truthy download_url); cbn [negb].
  2: { intros Heq. injection Heq as <- <-. now left. }
  destruct (dict_get item (lit "authors") (JArr [])) as [authors|];
    [|discriminate].
  destruct (author_names_of authors) as [author_names|]; [|discriminate].
  destruct (download_and_extract_bps item download_url zip_dir bps_dir w)
    as [result w1].
  destruct (requires_login result).
  { intros Heq. injection Heq as <- <-. right. cbn. lia. }
  destruct (download_success result); cbn [negb].
  2: { intros Heq. injection Heq as <- <-. right. cbn. lia. }
  destruct (patch_files (bps_files result) patched_dir flips clean_rom 0 0 w1)
    as [[ok failed] w2].
  intros Heq. injection Heq as <- <-. right. cbn. lia.
Qed.

(** A partition that is processed to its end reports as many hacks as it
    reports downloads, failed downloads and login-required hacks. *)
Lemma process_items_totals all_items :
  forall stats stats' w w',
    process_items zip_dir bps_dir patched_dir flips clean_rom stats
      all_items w = (Some stats', w') ->
    Stats.total_hacks stats
    = Stats.downloaded stats + Stats.failed_downloads stats
      + Stats.requires_login stats ->
    Stats.total_hacks stats'
    = Stats.downloaded stats' + Stats.failed_downloads stats'
      + Stats.requires_login stats'.
Proof.
  induction all_items as [|item rest IH]; intros stats stats' w w' Hrun Hinv;
    cbn [process_items] in Hrun.
  - injection Hrun as <- <-. exact Hinv.
  - destruct (process_item zip_dir bps_dir patched_dir flips clean_rom stats
                item w) as [[stats1|] w1] eqn:Hitem; [|discriminate].
    apply (IH _ _ _ _ Hrun).
    destruct (process_item_classifies _ _ _ _ _ Hitem)
      as [[-> _] | (Ht & Hsum & _)]; lia.
Qed.

(** C5: when a download answered with 200 is saved and the saved file does
    not open as a zip archive, the outcome records the error
    [Invalid ZIP file] and keeps the download-success flag (no exception
    leaves the function), and the loop of [main] counts the item among the
    downloaded ones: the failed downloads and their list stay as they
    were. *)
Theorem invalid_archive_counts_as_downloaded
  (item hack_name : json) (url author_names msg : str)
  (stats : Stats.t) (w w2 w3 : W) :
  listed_item item hack_name url author_names ->
  downloaded_in zip_dir url w w2 ->
  zip_namelist (zip_path_of zip_dir url) w2 = (Raise (BadZipFile msg), w3) ->
  download_and_extract_bps item (JStr url) zip_dir bps_dir w =
    ({| success := false;
        download_success := true;
        bps_count := 0;
        bps_files := [];
        error := Some (lit "Invalid ZIP file");
        requires_login := false |}, w3)
  /\ exists stats',
      process_item zip_dir bps_dir patched_dir flips clean_rom stats item w
      = (Some stats', w3)
      /\ Stats.total_hacks stats' = Stats.total_hacks stats + 1
      /\ Stats.downloaded stats' = Stats.downloaded stats + 1
      /\ Stats.failed_downloads stats' = Stats.failed_downloads stats
      /\ Stats.failed_hacks stats' = Stats.failed_hacks stats
      /\ Stats.requires_login stats' = Stats.requires_login stats
      /\ Stats.login_required_hacks stats' = Stats.login_required_hacks stats.
Proof.
  intros Hitem Hdl Hopen.
  assert (Hresult :
    download_and_extract_bps item (JStr url) zip_dir bps_dir w =
      ({| success := false; download_success := true; bps_count := 0;
          bps_files := []; error := Some (lit "Invalid ZIP file");
          requires_login := false |}, w3)).
  { rewrite (download_after_save _ _ _ _ _ _ Hdl). cbn zeta.
    now rewrite Hopen. }
  split; [exact Hresult|].
  rewrite (process_item_listed _ _ _ _ stats w Hitem). cbn zeta.
  rewrite Hresult. cbn.
  eexists. split; [reflexivity|]. cbn. repeat split; lia.
Qed.

(** C7: a partition of two items, the first yielding an archive with a
    single patch member that is extracted and patched with exit status
    zero, the second answered with HTTP 403, ends with total_hacks 2,
    downloaded 1, failed_downloads 0, requires_login 1, total_bps 1,
    patched 1 (and no failed patch), the login-required list holding
    exactly the name, authors and URL of the second item. *)
Theorem two_item_partition
  (item1 item2 name1 name2 : json) (url1 url2 authors1 authors2 member : str)
  (namelist : list str) (content : list byte)
  (result : completed) (resp : response) (w w2 w3 w4 w5 w6 : W) :
  listed_item item1 name1 url1 authors1 ->
  listed_item item2 name2 url2 authors2 ->
  downloaded_in zip_dir url1 w w2 ->
  zip_namelist (zip_path_of zip_dir url1) w2 = (Ok namelist, w3) ->
  filter is_bps_member namelist = [member] ->
  extracted true (base_name_of item1 url1) (decoded_filename_of url1)
    (zip_path_of zip_dir url1) bps_dir [member] w3 [content] w4 ->
  subprocess_run
    (patch_command
       (OsPath.join bps_dir
          (new_bps_name true (base_name_of item1 url1)
             (decoded_filename_of url1) content))
       patched_dir flips clean_rom) w4 = (Ok result, w5) ->
  returncode result = 0%Z ->
  requests_get (JStr url2) w5 = (Ok resp, w6) ->
  status_code resp = 403%Z ->
  process_items zip_dir bps_dir patched_dir flips clean_rom Stats.initial
    [item1; item2] w =
    (Some {| Stats.total_hacks := 2;
             Stats.downloaded := 1;
             Stats.failed_downloads := 0;
             Stats.requires_login := 1;
             Stats.total_bps := 1;
             Stats.patched := 1;
             Stats.failed_patches := 0;
             Stats.login_required_hacks :=
               [Stats.LoginRequiredHack name2 authors2 (JStr url2)];
             Stats.failed_hacks := [] |}, w6).
Proof.
  intros Hitem1 Hitem2 Hdl Hopen Hone Hrun Hpatch Hzero Hget Hdenied.
  cbn [process_items].
  rewrite (process_item_listed _ _ _ _ Stats.initial w Hitem1). cbn zeta.
  destruct (download_of_extracted item1 url1 zip_dir bps_dir
              w w2 w3 w4 namelist [content] Hdl Hopen) as [-> _].
  { rewrite Hone. exact Hrun. }
  rewrite Hone. cbn [requires_login download_success negb bps_files
                       bps_count paths_of map length Nat.eqb patch_files].
  unfold patch_bps_file. rewrite Hpatch, Hzero. cbn [Z.eqb patch_files].
  rewrite (process_item_listed _ _ _ _ _ w5 Hitem2). cbn zeta.
  unfold download_and_extract_bps. rewrite Hget, Hdenied. reflexivity.
Qed.

End Loop.

(* ================================================================== *)
(** * The statements on concrete runs *)

Import Scenario.

Ltac run_world := lazy; reflexivity.

Ltac run_extraction :=
  lazy; repeat (eapply extracted_cons; [reflexivity | reflexivity |]);
  apply extracted_nil.

Ltac run_download := do 2 eexists; repeat split; run_world.

Ltac item_is_listed :=
  repeat split; try reflexivity; try discriminate;
  eexists; split; reflexivity.

(** C10: an archive with two patch members, the second of which raises
    when it is read.  The path of the first is in [bps_files] by then and
    the count is never set: the item is counted as downloaded with no
    patch extracted, and yet one patch is applied, so that [patched] and
    [failed_patches] do not add up to [total_bps]. *)
Theorem partial_extraction_breaks_patch_total :
  let world := Sim.world (Sim.archive_world 200 second_corrupt 0) in
  let result :=
    fst (@download_and_extract_bps _ world item1 (JStr url1) zip_dir
           bps_dir []) in
  let stats :=
    fst (@process_items _ world zip_dir bps_dir patched_dir flips clean_rom
           Stats.initial [item1] []) in
  result =
    {| success := false;
       download_success := true;
       bps_count := 0;
       bps_files :=
         [lit "out/bps/First Hack - Ann - Kaizo - Newcomer - Unknown - first hack_0cb988.bps"];
       error := Some (lit "Invalid ZIP file");
       requires_login := false |}
  /\ stats =
       Some {| Stats.total_hacks := 1;
               Stats.downloaded := 1;
               Stats.failed_downloads := 0;
               Stats.requires_login := 0;
               Stats.total_bps := 0;
               Stats.patched := 1;
               Stats.failed_patches := 0;
               Stats.login_required_hacks := [];
               Stats.failed_hacks := [] |}
  /\ (forall s, stats = Some s ->
        Stats.patched s + Stats.failed_patches s <> Stats.total_bps s).
Proof.
  cbv zeta. split; [|split].
  - vm_compute. reflexivity.
  - vm_compute. reflexivity.
  - intros s Hs. vm_compute in Hs. injection Hs as <-. cbn. lia.
Qed.

(** C1, as stated, fails: two members with the same bytes are written to
    the same path, and so are two members with different bytes of the same
    length when the name of the download does not contain [.zip], in which
    case the names carry no hash at all. *)
Lemma generated_names_counterexample :
  let same :=
    fst (@download_and_extract_bps _
           (Sim.world (Sim.archive_world 200 same_bytes 0))
           item1 (JStr url1) zip_dir bps_dir []) in
  let unnamed :=
    fst (@download_and_extract_bps _
           (Sim.world (Sim.archive_world 200 two_patches 0))
           item4 (JStr url4) zip_dir bps_dir []) in
  (success same = true /\ bps_count same = 2
   /\ bps_files same =
        [lit "out/bps/First Hack - Ann - Kaizo - Newcomer - Unknown - first hack_0cb988.bps";
         lit "out/bps/First Hack - Ann - Kaizo - Newcomer - Unknown - first hack_0cb988.bps"]
   /\ ~ NoDup (bps_files same))
  /\ (success unnamed = true /\ bps_count unnamed = 2
      /\ bps_files unnamed =
           [lit "out/bps/Fourth - Di - Kaizo - Newcomer - Unknown - download?id=4";
            lit "out/bps/Fourth - Di - Kaizo - Newcomer - Unknown - download?id=4"]
      /\ ~ NoDup (bps_files unnamed)).
Proof.
  cbv zeta. split.
  - assert (Hfiles :
      bps_files
        (fst (@download_and_extract_bps _
                (Sim.world (Sim.archive_world 200 same_bytes 0))
                item1 (JStr url1) zip_dir bps_dir [])) =
      [lit "out/bps/First Hack - Ann - Kaizo - Newcomer - Unknown - first hack_0cb988.bps";
       lit "out/bps/First Hack - Ann - Kaizo - Newcomer - Unknown - first hack_0cb988.bps"])
      by (vm_compute; reflexivity).
    repeat split; try (vm_compute; reflexivity).
    rewrite Hfiles. intros Hnodup. inversion Hnodup as [|p l Hnotin _].
    apply Hnotin. now left.
  - assert (Hfiles :
      bps_files
        (fst (@download_and_extract_bps _
                (Sim.world (Sim.archive_world 200 two_patches 0))
                item4 (JStr url4) zip_dir bps_dir [])) =
      [lit "out/bps/Fourth - Di - Kaizo - Newcomer - Unknown - download?id=4";
       lit "out/bps/Fourth - Di - Kaizo - Newcomer - Unknown - download?id=4"])
      by (vm_compute; reflexivity).
    repeat split; try (vm_compute; reflexivity).
    rewrite Hfiles. intros Hnodup. inversion Hnodup as [|p l Hnotin _].
    apply Hnotin. now left.
Qed.

(** C2, as stated, fails: the patch extracted for a hack whose name
    contains [.bps] has that [.bps] replaced along with the suffix, so the
    output path is not the file name with its suffix replaced; and when
    the tool cannot be started the function returns [False] without any
    standard-error text to log, since no process ran. *)
Lemma patch_bps_file_counterexample :
  let expected :=
    OsPath.join patched_dir (with_smc_suffix (OsPath.basename cool_patch)) in
  let world :=
    Sim.world
      (Sim.tool_not_started (Sim.archive_world 200 one_patch 0)
         (lit "[Errno 13] Permission denied: './flips'")) in
  let cmd := patch_command cool_patch patched_dir flips clean_rom in
  let run := @patch_bps_file _ world cool_patch patched_dir flips clean_rom [] in
  (bps_files
     (fst (@download_and_extract_bps _
             (Sim.world (Sim.archive_world 200 one_patch 0))
             item3 (JStr url3) zip_dir bps_dir [])) = [cool_patch]
   /\ expected =
     lit "out/patched/Cool.bps Hack - Cy - Kaizo - Newcomer - Unknown - cool.smc"
   /\ nth 4 cmd [] =
        lit "out/patched/Cool.smc Hack - Cy - Kaizo - Newcomer - Unknown - cool.smc"
   /\ nth 4 cmd [] <> expected)
  /\ (fst (fst run) = false
      /\ ~ @stderr_logged _ world cmd [] (snd (fst run))).
Proof.
  cbv zeta. split; [split; [|split; [|split]]|split].
  - vm_compute. reflexivity.
  - vm_compute. reflexivity.
  - vm_compute. reflexivity.
  - vm_compute. discriminate.
  - vm_compute. reflexivity.
  - intros (result & w1 & Hrun & _). vm_compute in Hrun. discriminate.
Qed.

(** C8, as stated, fails: the archive is a valid one with two patch
    members, and the write of the second raises.  Both members are
    selected, but only the first is written and listed, and no count is
    recorded. *)
Lemma extraction_selects_bps_members_counterexample :
  let run :=
    @download_and_extract_bps _ (Sim.world disk_full)
      item1 (JStr url1) zip_dir bps_dir [] in
  Sim.on_namelist disk_full (zip_path_of zip_dir url1)
  = Ok [lit "a.bps"; lit "notes.txt"; lit "extra/b.Bps"]
  /\ filter is_bps_member [lit "a.bps"; lit "notes.txt"; lit "extra/b.Bps"]
     = [lit "a.bps"; lit "extra/b.Bps"]
  /\ fst run =
       {| success := false;
          download_success := true;
          bps_count := 0;
          bps_files :=
            [lit "out/bps/First Hack - Ann - Kaizo - Newcomer - Unknown - first hack_0cb988.bps"];
          error :=
            Some (lit "Extraction error: [Errno 28] No space left on device");
          requires_login := false |}
  /\ bps_count (fst run) <> 2
  /\ length (bps_files (fst run)) <> 2.
Proof.
  cbv zeta.
  assert (Hrun :
    fst (@download_and_extract_bps _ (Sim.world disk_full)
           item1 (JStr url1) zip_dir bps_dir []) =
    {| success := false;
       download_success := true;
       bps_count := 0;
       bps_files :=
         [lit "out/bps/First Hack - Ann - Kaizo - Newcomer - Unknown - first hack_0cb988.bps"];
       error :=
         Some (lit "Extraction error: [Errno 28] No space left on device");
       requires_login := false |})
    by (vm_compute; reflexivity).
  split; [vm_compute; reflexivity|].
  split; [vm_compute; reflexivity|].
  split; [exact Hrun|].
  rewrite Hrun. cbn. split; discriminate.
Qed.

(** *** Runs on which the statements with hypotheses apply *)

Lemma access_denied_outcome_witness :
  @download_and_extract_bps _
    (Sim.world (Sim.archive_world 403 one_patch 0))
    item2 (JStr url2) zip_dir bps_dir [] =
    ({| success := false;
        download_success := false;
        bps_count := 0;
        bps_files := [];
        error := Some (lit "Requires login (age verification)");
        requires_login := true |}, [Sim.Get (JStr url2)]).
Proof.
  eapply (@access_denied_outcome _
            (Sim.world (Sim.archive_world 403 one_patch 0))); run_world.
Defined.

Lemma no_patch_members_outcome_witness :
  fst (@download_and_extract_bps _
         (Sim.world (Sim.archive_world 200 no_patch 0))
         item1 (JStr url1) zip_dir bps_dir []) =
    {| success := true;
       download_success := true;
       bps_count := 0;
       bps_files := [];
       error := None;
       requires_login := false |}.
Proof.
  edestruct (@no_patch_members_outcome _
               (Sim.world (Sim.archive_world 200 no_patch 0))
               item1 url1 zip_dir bps_dir []) as [Houtcome _].
  - run_download.
  - run_world.
  - run_world.
  - now rewrite Houtcome.
Defined.

Lemma extraction_selects_bps_members_witness :
  fst (@download_and_extract_bps _
         (Sim.world (Sim.archive_world 200 two_patches 0))
         item1 (JStr url1) zip_dir bps_dir []) =
    {| success := true;
       download_success := true;
       bps_count := 2;
       bps_files :=
         [lit "out/bps/First Hack - Ann - Kaizo - Newcomer - Unknown - first hack_0cb988.bps";
          lit "out/bps/First Hack - Ann - Kaizo - Newcomer - Unknown - first hack_706acf.bps"];
       error := None;
       requires_login := false |}.
Proof.
  edestruct (@extraction_selects_bps_members _
               (Sim.world (Sim.archive_world 200 two_patches 0))
               item1 url1 zip_dir bps_dir []) as (_ & Houtcome & _).
  - run_download.
  - run_world.
  - run_extraction.
  - rewrite Houtcome. vm_compute. reflexivity.
Defined.

Lemma generated_names_witness :
  bps_files
    (fst (@download_and_extract_bps _
            (Sim.world (Sim.archive_world 200 two_patches 0))
            item1 (JStr url1) zip_dir bps_dir [])) =
    [lit "out/bps/First Hack - Ann - Kaizo - Newcomer - Unknown - first hack_0cb988.bps";
     lit "out/bps/First Hack - Ann - Kaizo - Newcomer - Unknown - first hack_706acf.bps"]
  /\ get_short_hash [x01; x02] 6 = lit "0cb988"
  /\ get_short_hash [x01; x03] 6 = lit "706acf".
Proof.
  edestruct (@generated_names _
               (Sim.world (Sim.archive_world 200 two_patches 0))
               item1 url1 zip_dir bps_dir []) as (Hfiles & _).
  - run_download.
  - run_world.
  - run_extraction.
  - rewrite Hfiles. vm_compute. repeat split; reflexivity.
Defined.

Lemma fetch_all_data_concatenates_pages_witness :
  fst (@fetch_all_data _ (Sim.world two_pages) 3
         (lit "https://catalog.example.net/list") []) =
    Some [item1; item2; JInt 3].
Proof.
  erewrite (@fetch_all_data_concatenates_pages _ (Sim.world two_pages)
              _ [] _ _ [[item1; item2]; [JInt 3]]).
  - reflexivity.
  - eapply served_page;
      [run_world | run_world | run_world | run_world | run_world | run_world |].
    eapply served_page;
      [run_world | run_world | run_world | run_world | run_world | run_world |].
    apply served_none.
  - eapply stops_bad_status; [run_world | run_world | lazy; discriminate].
  - cbn. lia.
Defined.

Lemma format_filename_never_fails_witness :
  format_filename (JObj [(lit "name", JStr (lit "My: Hack"))])
    (lit "my%20hack.zip")
  = lit "My Hack - Unknown - Unknown - Unknown - Unknown - my hack.zip"
  /\ format_filename JNull (lit "my%3Ahack.zip") = lit "my hack.zip".
Proof.
  split.
  - rewrite (proj1 (format_filename_never_fails
                      (JObj [(lit "name", JStr (lit "My: Hack"))])
                      (lit "my%20hack.zip"))
               _ (Some (lit "My: Hack")) [] None None None eq_refl).
    + vm_compute. reflexivity.
    + reflexivity.
    + apply authors_absent. reflexivity.
    + apply fields_absent. reflexivity.
  - rewrite (proj2 (proj2 (format_filename_never_fails JNull
                             (lit "my%3Ahack.zip")))).
    + vm_compute. reflexivity.
    + discriminate.
Defined.

Lemma patch_bps_file_outcome_witness :
  let run :=
    @patch_bps_file _ (Sim.world (Sim.archive_world 200 one_patch 0))
      (lit "out/bps/First Hack - first hack.bps")
      patched_dir flips clean_rom [] in
  patch_command (lit "out/bps/First Hack - first hack.bps")
    patched_dir flips clean_rom =
    [flips; lit "-a"; lit "out/bps/First Hack - first hack.bps"; clean_rom;
     lit "out/patched/First Hack - first hack.smc"]
  /\ fst (fst run) = true.
Proof.
  edestruct (@patch_bps_file_outcome _
               (Sim.world (Sim.archive_world 200 one_patch 0))
               (lit "out/bps/First Hack - first hack.bps")
               patched_dir flips clean_rom
               (lit "First Hack - first hack") [])
    as (Hcmd & Htrue & _).
  - vm_compute. reflexivity.
  - vm_compute. reflexivity.
  - split.
    + rewrite Hcmd. vm_compute. reflexivity.
    + apply Htrue. do 2 eexists. split; run_world.
Defined.

Lemma invalid_archive_counts_as_downloaded_witness :
  @process_item _ (Sim.world not_a_zip) zip_dir bps_dir patched_dir flips
    clean_rom Stats.initial item1 [] =
    (Some {| Stats.total_hacks := 1;
             Stats.downloaded := 1;
             Stats.failed_downloads := 0;
             Stats.requires_login := 0;
             Stats.total_bps := 0;
             Stats.patched := 0;
             Stats.failed_patches := 0;
             Stats.login_required_hacks := [];
             Stats.failed_hacks := [] |},
     [Sim.Get (JStr url1); Sim.Save (zip_path_of zip_dir url1);
      Sim.Namelist (zip_path_of zip_dir url1)]).
Proof.
  edestruct (@invalid_archive_counts_as_downloaded _ (Sim.world not_a_zip)
               zip_dir bps_dir patched_dir flips clean_rom
               item1 (JStr (lit "First Hack")) url1 (lit "Ann")
               (lit "File is not a zip file") Stats.initial [])
    as (_ & stats' & Hitem & _).
  - item_is_listed.
  - run_download.
  - run_world.
  - vm_compute. reflexivity.
Defined.

Lemma two_item_partition_witness :
  fst (@process_items _ first_then_denied zip_dir bps_dir patched_dir flips
         clean_rom Stats.initial [item1; item2] []) =
    Some {| Stats.total_hacks := 2;
            Stats.downloaded := 1;
            Stats.failed_downloads := 0;
            Stats.requires_login := 1;
            Stats.total_bps := 1;
            Stats.patched := 1;
            Stats.failed_patches := 0;
            Stats.login_required_hacks :=
              [Stats.LoginRequiredHack (JStr (lit "Second")) (lit "Bob")
                 (JStr url2)];
            Stats.failed_hacks := [] |}.
Proof.
  erewrite (@two_item_partition _ first_then_denied
              zip_dir bps_dir patched_dir flips clean_rom
              item1 item2 (JStr (lit "First Hack")) (JStr (lit "Second"))
              url1 url2 (lit "Ann") (lit "Bob")).
  - reflexivity.
  - item_is_listed.
  - item_is_listed.
  - run_download.
  - run_world.
  - run_world.
  - run_extraction.
  - run_world.
  - run_world.
  - run_world.
  - run_world.
Defined.

(* ================================================================== *)
(** * Further properties of the script *)

(** ** Sanitized names *)



Lemma replace_char (a b : char) (s : str) :
  replace s [a] [b] = map (fun c => if (a =? c)%N then b else c) s.
Proof.
  unfold replace. induction s as [|c s IH]; [reflexivity|].
  cbn [replace_scan starts_with length Nat.sub map app].
  destruct (a =? c)%N; cbn [andb]; now rewrite IH.
Qed.

Lemma tidy_loose b s : tidy b s = true -> loose b s = true.
Proof.
  revert b. induction s as [|c s IH]; intros b; cbn [tidy loose];
    [reflexivity|].
  destruct (is_blank c); intros Ht.
  - apply andb_prop in Ht as [Hc Ht]. rewrite Hc. now apply IH.
  - apply andb_prop in Ht as [Hc Ht]. rewrite Hc. now apply IH.
Qed.

Lemma collapse_runs_loose s :
  Forall (fun c => is_illegal c = false) s ->
  forall b, loose b (collapse_runs b s) = true.
Proof.
  induction 1 as [|c s Hc _ IH]; intros b; cbn [collapse_runs];
    [reflexivity|].
  destruct (is_blank c) eqn:Hb.
  - destruct b; [apply IH|]. cbn [loose]. change (is_blank 32%N) with true.
    cbn. apply IH.
  - cbn [loose]. rewrite Hb, Hc. apply IH.
Qed.

Lemma collapse_runs_fixed s :
  forall b, loose b s = true -> collapse_runs b s = s.
Proof.
  induction s as [|c s IH]; intros b; cbn [loose collapse_runs];
    [reflexivity|].
  destruct (is_blank c); intros Hl.
  - apply andb_prop in Hl as [Hl Hs]. apply andb_prop in Hl as [Hc Hb].
    apply N.eqb_eq in Hc. subst c.
    destruct b; [discriminate|]. now rewrite (IH true Hs).
  - apply andb_prop in Hl as [_ Hs]. now rewrite (IH false Hs).
Qed.

Lemma isspace_blank c : isspace c = true -> is_blank c = true.
Proof. unfold is_blank. intros ->. apply orb_true_r. Qed.

(** In a loose string the blank characters are spaces. *)
Lemma loose_head_space b c s :
  loose b (c :: s) = true -> is_blank c = true ->
  c = 32%N /\ b = false /\ loose true s = true.
Proof.
  cbn [loose]. intros Hl Hblank. rewrite Hblank in Hl.
  apply andb_prop in Hl as [Hl Hs].
  apply andb_prop in Hl as [Hc Hb]. apply N.eqb_eq in Hc.
  now destruct b.
Qed.

Lemma loose_head_plain b c s :
  loose b (c :: s) = true -> is_blank c = false ->
  forall b', loose b' (c :: s) = true.
Proof.
  intros Hl Hb b'. cbn [loose] in *. rewrite Hb in *. exact Hl.
Qed.

Lemma lstrip_loose s :
  loose false s = true -> loose true (lstrip s) = true.
Proof.
  destruct s as [|c s]; [reflexivity|]. intros Hl. cbn [lstrip].
  destruct (isspace c) eqn:Hc.
  - destruct (loose_head_space _ _ _ Hl (isspace_blank _ Hc)) as (_ & _ & Hs).
    destruct s as [|c' s]; [reflexivity|]. cbn [lstrip].
    destruct (isspace c') eqn:Hc'; [|exact Hs].
    now destruct (loose_head_space _ _ _ Hs (isspace_blank _ Hc'))
      as (_ & ? & _).
  - destruct (is_blank c) eqn:Hb.
    + destruct (loose_head_space _ _ _ Hl Hb) as (-> & _ & _). discriminate.
    + now apply loose_head_plain with (b := false).
Qed.

Lemma lstrip_split s :
  exists d, s = d ++ lstrip s
            /\ Forall (fun c => isspace c = true) d
            /\ (forall c t, lstrip s = c :: t -> isspace c = false).
Proof.
  induction s as [|c s (d & Hs & Hd & Hhead)].
  - exists []. repeat split; [constructor | discriminate].
  - cbn [lstrip]. destruct (isspace c) eqn:Hc.
    + exists (c :: d). repeat split.
      * cbn. now rewrite <- Hs.
      * now constructor.
      * exact Hhead.
    + exists []. repeat split; [constructor|].
      intros c' t Heq. now injection Heq as <- _.
Qed.

(** [strip] cuts white space off both ends. *)
Lemma strip_split s :
  exists d, lstrip s = strip s ++ d
            /\ Forall (fun c => isspace c = true) d
            /\ (forall x c, strip s = x ++ [c] -> isspace c = false).
Proof.
  unfold strip.
  destruct (lstrip_split (rev (lstrip s))) as (d & Hs & Hd & Hhead).
  exists (rev d). repeat split.
  - apply (f_equal (@rev _)) in Hs.
    now rewrite rev_involutive, rev_app_distr in Hs.
  - now apply Forall_rev.
  - intros x c Heq. apply (f_equal (@rev _)) in Heq.
    rewrite rev_involutive, rev_app_distr in Heq. cbn in Heq.
    exact (Hhead _ _ Heq).
Qed.

Lemma loose_tidy w :
  forall b d,
    loose b (w ++ d) = true ->
    w <> [] ->
    (forall x c, w = x ++ [c] -> isspace c = false) ->
    tidy b w = true.
Proof.
  induction w as [|c w IH]; intros b d Hl Hne Hlast; [congruence|].
  cbn [app] in Hl. cbn [tidy].
  destruct w as [|c' w].
  - assert (Hc : isspace c = false) by (apply (Hlast [] c); reflexivity).
    destruct (is_blank c) eqn:Hb.
    + destruct (loose_head_space _ _ _ Hl Hb) as (-> & _ & _). discriminate.
    + cbn [loose] in Hl. rewrite Hb in Hl. apply andb_prop in Hl as [-> _].
      reflexivity.
  - assert (Hlast' : forall x c0, c' :: w = x ++ [c0] -> isspace c0 = false).
    { intros x c0 Heq. apply (Hlast (c :: x) c0). cbn. now rewrite Heq. }
    destruct (is_blank c) eqn:Hb.
    + destruct (loose_head_space _ _ _ Hl Hb) as (-> & -> & Hs).
      cbn [N.eqb Pos.eqb negb andb]. apply (IH true d Hs); [discriminate | exact Hlast'].
    + cbn [loose] in Hl. rewrite Hb in Hl.
      apply andb_prop in Hl as [-> Hs]. cbn [andb].
      apply (IH false d Hs); [discriminate | exact Hlast'].
Qed.

Lemma strip_clean s : loose false s = true -> is_clean (strip s) = true.
Proof.
  intros Hl. apply lstrip_loose in Hl.
  destruct (strip_split s) as (d & Hs & _ & Hlast). rewrite Hs in Hl.
  unfold is_clean. destruct (strip s) as [|c t] eqn:E; [reflexivity|].
  apply (loose_tidy _ _ d Hl); [discriminate | exact Hlast].
Qed.

Lemma sanitize_legal_stage filename :
  Forall (fun c => is_illegal c = false)
    (replace
       (replace (map (fun c => if is_illegal c then 95%N else c) filename)
          [10%N] [32%N]) [13%N] [32%N]).
Proof.
  rewrite !replace_char, !map_map. apply Forall_map, Forall_forall.
  intros c _. destruct (is_illegal c) eqn:Hc.
  - reflexivity.
  - destruct (10 =? c)%N; [reflexivity|].
    destruct (13 =? c)%N; [reflexivity | exact Hc].
Qed.

Lemma tidy_chars s :
  forall b, tidy b s = true ->
  Forall (fun c => is_illegal c = false /\ (is_blank c = true -> c = 32%N)) s.
Proof.
  induction s as [|c s IH]; intros b Ht; [constructor|].
  cbn [tidy] in Ht. destruct (is_blank c) eqn:Hb.
  - apply andb_prop in Ht as [Ht Hs]. apply andb_prop in Ht as [Hc _].
    apply N.eqb_eq in Hc. subst c. constructor; [now split | eauto].
  - apply andb_prop in Ht as [Hc Hs]. apply negb_true_iff in Hc.
    constructor; [split; [exact Hc | congruence] | eauto].
Qed.

Lemma tidy_last x c : forall b, tidy b (x ++ [c]) = true -> is_blank c = false.
Proof.
  induction x as [|a x IH]; intros b; cbn [app tidy].
  - destruct (is_blank c); [|reflexivity]. intros Ht.
    apply andb_prop in Ht as [_ Ht]. discriminate.
  - destruct (is_blank a); intros Ht; apply andb_prop in Ht as [_ Ht]; eauto.
Qed.

Lemma not_blank_not_space c : is_blank c = false -> isspace c = false.
Proof.
  intros Hb. destruct (isspace c) eqn:Hc; [|reflexivity].
  now rewrite (isspace_blank _ Hc) in Hb.
Qed.

Lemma strip_fixed s : tidy true s = true -> strip s = s.
Proof.
  intros Ht. unfold strip.
  assert (Hl : lstrip s = s).
  { destruct s as [|c s]; [reflexivity|]. cbn [tidy] in Ht. cbn [lstrip].
    destruct (is_blank c) eqn:Hb.
    - apply andb_prop in Ht as [Ht _]. apply andb_prop in Ht as [_ Ht].
      discriminate.
    - now rewrite (not_blank_not_space _ Hb). }
  rewrite Hl. destruct (rev s) as [|c r] eqn:E.
  - apply (f_equal (@rev _)) in E. now rewrite rev_involutive in E.
  - apply (f_equal (@rev _)) in E. rewrite rev_involutive in E. cbn in E.
    rewrite E in Ht. cbn [lstrip].
    rewrite (not_blank_not_space _ (tidy_last _ _ _ Ht)). now rewrite E.
Qed.

Lemma loose_weaken s : loose true s = true -> loose false s = true.
Proof.
  destruct s as [|c s]; [reflexivity|]. cbn [loose].
  destruct (is_blank c); [|auto]. intros Hl.
  apply andb_prop in Hl as [Hl _]. apply andb_prop in Hl as [_ Hl].
  discriminate.
Qed.

Lemma clean_fixed s : is_clean s = true -> sanitize_filename s = s.
Proof.
  destruct s as [|c0 s0]; [reflexivity|]. unfold is_clean.
  set (s := c0 :: s0). intros Ht. unfold sanitize_filename.
  pose proof (tidy_chars _ _ Ht) as Hchars.
  assert (Hstage :
    replace
      (replace (map (fun c => if is_illegal c then 95%N else c) s)
         [10%N] [32%N]) [13%N] [32%N] = s).
  { rewrite !replace_char, !map_map. rewrite <- (map_id s) at 2.
    apply map_ext_in. intros c Hin.
    rewrite Forall_forall in Hchars. destruct (Hchars c Hin) as [Hlegal Hb].
    rewrite Hlegal.
    destruct (10 =? c)%N eqn:H10.
    { apply N.eqb_eq in H10. subst c. now specialize (Hb eq_refl). }
    destruct (13 =? c)%N eqn:H13; [|reflexivity].
    apply N.eqb_eq in H13. subst c. now specialize (Hb eq_refl). }
  rewrite Hstage.
  rewrite (collapse_runs_fixed s false (loose_weaken _ (tidy_loose _ _ Ht))).
  now apply strip_fixed.
Qed.


Lemma tidy_no_double_space x y :
  forall b, tidy b (x ++ [32%N; 32%N] ++ y) = false.
Proof.
  induction x as [|c x IH]; intros b; cbn [app tidy].
  - change (is_blank 32%N) with true. cbn [N.eqb Pos.eqb negb andb].
    now rewrite andb_false_r.
  - destruct (is_blank c); rewrite (IH _); now rewrite andb_false_r.
Qed.

Lemma sanitized_is_clean filename :
  is_clean (sanitize_filename filename) = true.
Proof.
  unfold sanitize_filename. apply strip_clean, collapse_runs_loose.
  apply sanitize_legal_stage.
Qed.

(** X1: a sanitized name holds none of the illegal characters and no
    underscore, its only white space is the space, it neither starts nor
    ends with a space and has no two spaces in a row. *)
Theorem sanitize_filename_output (filename : str) :
  let name := sanitize_filename filename in
  Forall (fun c => is_illegal c = false /\ c <> 95%N
                   /\ (isspace c = true -> c = 32%N)) name
  /\ (forall c t, name = c :: t -> c <> 32%N)
  /\ (forall x c, name = x ++ [c] -> c <> 32%N)
  /\ (forall x y, name <> x ++ [32%N; 32%N] ++ y).
Proof.
  cbn zeta. pose proof (sanitized_is_clean filename) as Hclean.
  destruct (sanitize_filename filename) as [|c0 s0] eqn:E.
  - repeat split; try constructor; try discriminate.
    + intros x c Heq. now destruct x.
    + intros x y Heq. now destruct x.
  - unfold is_clean in Hclean. rewrite <- E in *. clear E c0 s0.
    set (name := sanitize_filename filename) in *. repeat split.
    + eapply Forall_impl; [|exact (tidy_chars _ _ Hclean)].
      intros c [Hlegal Hblank]. repeat split; [exact Hlegal | |].
      * intros ->. now specialize (Hblank eq_refl).
      * intros Hspace. apply Hblank. unfold is_blank. rewrite Hspace.
        apply orb_true_r.
    + intros c t Heq ->. rewrite Heq in Hclean. discriminate.
    + intros x c Heq ->. rewrite Heq in Hclean.
      pose proof (tidy_last _ _ _ Hclean) as Hlast. discriminate Hlast.
    + intros x y Heq. rewrite Heq, tidy_no_double_space in Hclean.
      discriminate.
Qed.

(** X2: the names [sanitize_filename] leaves as they are are exactly the
    clean ones, and sanitizing twice is the same as sanitizing once. *)
Theorem sanitize_filename_fixed_points (filename : str) :
  (sanitize_filename filename = filename <-> is_clean filename = true)
  /\ sanitize_filename (sanitize_filename filename)
     = sanitize_filename filename.
Proof.
  split; [split|].
  - intros <-. apply sanitized_is_clean.
  - apply clean_fixed.
  - apply clean_fixed, sanitized_is_clean.
Qed.

(** ** More on composite names *)

Lemma sanitized_legal filename :
  Forall (fun c => is_illegal c = false) (sanitize_filename filename).
Proof.
  pose proof (sanitized_is_clean filename) as Hclean.
  destruct (sanitize_filename filename) as [|c s]; [constructor|].
  eapply Forall_impl; [|exact (tidy_chars _ _ Hclean)]. now intros a [Ha _].
Qed.

Lemma text_field_legal d key text :
  text_field d key = Some text -> Forall (fun c => is_illegal c = false) text.
Proof.
  unfold text_field, sanitize_value.
  destruct (dict_get d key unknown) as [[]|]; try discriminate.
  intros Heq. injection Heq as <-. apply sanitized_legal.
Qed.

Lemma sanitized_author_names_legal authors :
  forall names,
    sanitized_author_names authors = Some names ->
    Forall (fun c => is_illegal c = false) (join (lit " & ") names).
Proof.
  induction authors as [|a authors IH]; intros names; cbn [sanitized_author_names].
  - intros Heq. injection Heq as <-. constructor.
  - destruct (dict_get a (lit "name") unknown) as [v|]; [|discriminate].
    destruct (sanitize_value v) as [n|] eqn:Hn; [|discriminate].
    destruct (sanitized_author_names authors) as [ns|]; [|discriminate].
    intros Heq. injection Heq as <-.
    assert (Hlegal : Forall (fun c => is_illegal c = false) n).
    { destruct v; try discriminate. injection Hn as <-.
      apply sanitized_legal. }
    specialize (IH ns eq_refl). cbn [join]. destruct ns as [|n' ns].
    + exact Hlegal.
    + apply Forall_app. split; [exact Hlegal|].
      apply Forall_app. split; [|exact IH].
      repeat constructor.
Qed.

Lemma authors_field_legal item_data text :
  authors_field item_data = Some text ->
  Forall (fun c => is_illegal c = false) text.
Proof.
  unfold authors_field.
  destruct (dict_get item_data (lit "authors") (JArr [])) as [authors|];
    [|discriminate].
  destruct (truthy authors).
  - destruct (py_iter authors) as [l|]; [|discriminate].
    destruct (sanitized_author_names l) as [names|] eqn:Hn; [|discriminate].
    intros Heq. injection Heq as <-.
    exact (sanitized_author_names_legal _ _ Hn).
  - intros Heq. injection Heq as <-. repeat constructor.
Qed.

(** X3: a composite name that is built is the metadata part, which holds
    no illegal character and ends with the separator, followed by the
    decoded original file name, which is appended as it is. *)
Theorem composite_name_parts (item_data : json)
  (original_filename composite : str) :
  format_filename_try item_data original_filename = Some composite ->
  exists metadata,
    composite = metadata ++ UrlLib.unquote original_filename
    /\ Forall (fun c => is_illegal c = false) metadata
    /\ ends_with metadata (lit " - ") = true.
Proof.
  unfold format_filename_try. intros Htry.
  destruct (text_field item_data (lit "name")) as [name|] eqn:Hname;
    [|discriminate].
  destruct (authors_field item_data) as [authors|] eqn:Hauthors;
    [|discriminate].
  destruct (dict_get item_data (lit "fields") (JObj [])) as [fields|];
    [|discriminate].
  destruct (text_field fields (lit "type")) as [ty|] eqn:Hty;
    [|discriminate].
  destruct (text_field fields (lit "difficulty")) as [di|] eqn:Hdi;
    [|discriminate].
  destruct (text_field fields (lit "length")) as [le|] eqn:Hle;
    [|discriminate].
  assert (Hc : composite =
    (name ++ lit " - " ++ authors ++ lit " - " ++ ty ++ lit " - "
     ++ di ++ lit " - " ++ le ++ lit " - ")
    ++ UrlLib.unquote original_filename).
  { injection Htry as <-. cbn [join]. now rewrite <- !app_assoc. }
  eexists. split; [exact Hc|]. split.
  - apply text_field_legal in Hname, Hty, Hdi, Hle.
    apply authors_field_legal in Hauthors.
    repeat (apply Forall_app; split); try assumption; repeat constructor.
  - apply ends_with_iff.
    exists (name ++ lit " - " ++ authors ++ lit " - " ++ ty ++ lit " - "
            ++ di ++ lit " - " ++ le).
    now rewrite <- !app_assoc.
Qed.

(** X4: when building the composite name raises, the name returned is a
    clean one. *)
Theorem fallback_name_is_clean (item_data : json) (original_filename : str) :
  format_filename_try item_data original_filename = None ->
  is_clean (format_filename item_data original_filename) = true.
Proof.
  unfold format_filename. intros ->. apply sanitized_is_clean.
Qed.

(** X5: an [authors] value that is present but counts as false (null, an
    empty list, an empty string, zero) shows as [Unknown], like an absent
    one. *)
Theorem empty_authors_show_as_unknown (kv : list (str * json))
  (authors : json) (original_filename : str)
  (name hack_type difficulty length : option str) :
  lookup (lit "authors") kv = Some authors ->
  truthy authors = false ->
  optional_string kv (lit "name") name ->
  fields_are kv hack_type difficulty length ->
  format_filename (JObj kv) original_filename =
    join (lit " - ")
      [shown name; lit "Unknown"; shown hack_type; shown difficulty;
       shown length; UrlLib.unquote original_filename].
Proof.
  intros Hauthors Hfalsy Hname Hfields.
  unfold format_filename, format_filename_try.
  rewrite (text_field_shown _ _ _ Hname).
  unfold authors_field, dict_get. rewrite Hauthors, Hfalsy.
  destruct Hfields as [Habsent | fkv ty d l Hpresent Hty Hd Hl].
  - rewrite Habsent. reflexivity.
  - rewrite Hpresent, (text_field_shown _ _ _ Hty),
      (text_field_shown _ _ _ Hd), (text_field_shown _ _ _ Hl).
    reflexivity.
Qed.


(** ** Hashes, endpoints and folders *)

(** X6: for a length that is not negative the short hash has that many
    characters, up to the 32 of the digest; for a negative length it has
    as many characters less than 32, down to none (the slice counts from
    the end); all of them are lower-case hexadecimal digits. *)
Theorem get_short_hash_length (data : list byte) (length : Z) :
  List.length (get_short_hash data length)
  = (if (0 <=? length)%Z then Nat.min (Z.to_nat length) 32
     else 32 - Z.to_nat (- length))
  /\ Forall is_lower_hex (get_short_hash data length).
Proof.
  unfold get_short_hash, slice_to.
  destruct (hexdigest_shape data) as [Hlen Hhex].
  assert (Hprefix : forall n, Forall is_lower_hex
                                (firstn n (Md5.hexdigest data))).
  { intros n. rewrite <- (firstn_skipn n (Md5.hexdigest data)) in Hhex.
    now apply Forall_app in Hhex. }
  destruct (0 <=? length)%Z; (split; [|apply Hprefix]);
    rewrite length_firstn, Hlen; lia.
Qed.

Lemma str_eqb_eq a b : str_eqb a b = true <-> a = b.
Proof.
  unfold str_eqb. destruct (list_eq_dec N.eq_dec a b); split; congruence.
Qed.

Lemma distinct_NoDup l : distinct l = true -> NoDup l.
Proof.
  induction l as [|s l IH]; cbn [distinct]; intros Hd; constructor.
  - apply andb_prop in Hd as [Hs _]. apply negb_true_iff in Hs.
    intros Hin. assert (Hex : existsb (str_eqb s) l = true).
    { apply existsb_exists. exists s. split; [exact Hin|].
      now apply str_eqb_eq. }
    congruence.
  - apply andb_prop in Hd as [_ Hd]. auto.
Qed.

(** X7: different difficulty codes give different URLs, the URL for hacks
    awaiting moderation differs from every difficulty URL, and with
    [is_awaiting] the code is ignored. *)
Theorem build_endpoint_url_distinguishes (code1 code2 : str) :
  (build_endpoint_url (Some code1) false
   = build_endpoint_url (Some code2) false -> code1 = code2)
  /\ build_endpoint_url None true <> build_endpoint_url (Some code1) false
  /\ build_endpoint_url (Some code1) true = build_endpoint_url None true.
Proof.
  unfold build_endpoint_url. repeat split.
  - intros Heq. apply app_inv_head, app_inv_head in Heq.
    now apply app_inv_tail in Heq.
  - intros Heq. apply app_inv_head in Heq. discriminate.
Qed.

Lemma endpoints_checked_always args : endpoints_checked args = true.
Proof.
  destruct args as [[] [] [] [] [] [] [] [] []]; vm_compute; reflexivity.
Qed.

(** X8: whatever the flags, building the endpoints does not raise; their
    labels are pairwise different and so are their URLs; there are at most
    eight of them, and none exactly when no flag is set. *)
Theorem select_endpoints_labels (args : Args.t) :
  exists endpoints,
    select_endpoints args = Some endpoints
    /\ NoDup (map snd endpoints)
    /\ NoDup (map fst endpoints)
    /\ (endpoints = []
        <-> Args.all args = false /\ Args.newcomer args = false
            /\ Args.casual args = false /\ Args.intermediate args = false
            /\ Args.advanced args = false /\ Args.expert args = false
            /\ Args.master args = false /\ Args.grandmaster args = false
            /\ Args.awaiting args = false)
    /\ length endpoints <= 8.
Proof.
  pose proof (endpoints_checked_always args) as Hchecked.
  unfold endpoints_checked in Hchecked.
  destruct (select_endpoints args) as [endpoints|]; [|discriminate].
  exists endpoints.
  apply andb_prop in Hchecked as [Hchecked Hlen].
  apply andb_prop in Hchecked as [Hchecked Hempty].
  apply andb_prop in Hchecked as [Hlabels Hurls].
  split; [reflexivity|].
  split; [now apply distinct_NoDup|].
  split; [now apply distinct_NoDup|].
  split; [|now apply Nat.leb_le].
  apply Bool.eqb_prop in Hempty.
  destruct args as [[] [] [] [] [] [] [] [] []];
    destruct endpoints; cbn in Hempty |- *;
    try discriminate; split; intros; try discriminate; intuition congruence.
Qed.

(** X9: with [--all] the endpoints are those of the seven difficulty
    flags set together with the same [--awaiting] flag, whatever the
    difficulty flags are. *)
Theorem all_selects_every_difficulty (args : Args.t) :
  Args.all args = true ->
  select_endpoints args
  = select_endpoints
      (Args.Make false true true true true true true true
         (Args.awaiting args)).
Proof.
  destruct args as [all n c i a e m g []]; cbn [Args.all Args.awaiting];
    intros ->; vm_compute; reflexivity.
Qed.

Lemma join_common_prefix a c prefix x y :
  OsPath.join a ((c :: prefix) ++ x) = OsPath.join a ((c :: prefix) ++ y) ->
  x = y.
Proof.
  cbn [app]. intros Heq. apply join_same_head in Heq.
  now apply app_inv_head in Heq.
Qed.

(** X10: the three folders of a partition and its data file are four
    different paths, and partitions with different labels have different
    root folders. *)
Theorem partition_folders_distinct (base_dir label label' date_str : str) :
  let l := Layout.paths base_dir label date_str in
  NoDup [Layout.zip_dir l; Layout.bps_dir l; Layout.patched_dir l;
         Layout.json_path l]
  /\ (Layout.main_path l
      = Layout.main_path (Layout.paths base_dir label' date_str) ->
      label = label').
Proof.
  cbn zeta. unfold Layout.paths, Layout.main_folder.
  cbn [Layout.zip_dir Layout.bps_dir Layout.patched_dir Layout.json_path
       Layout.main_path].
  change (lit "smwcentral-kaizo-archive-")
    with (115%N :: lit "mwcentral-kaizo-archive-").
  split.
  - repeat constructor; cbn [In]; intros Hin;
      repeat (destruct Hin as [Hin|Hin];
              [apply join_common_prefix in Hin; discriminate|]);
      exact Hin.
  - intros Heq. cbn [app] in Heq. apply join_same_head in Heq.
    apply app_inv_head in Heq. now apply app_inv_tail in Heq.
Qed.


(** ** More on pagination *)

Section MorePagination.

Context {W : Type} `{World W}.

(** Fetching the pages the catalog serves leaves the loop where a run
    started at the last cursor, with their items accumulated, would be. *)
Lemma fetch_pages_resume url w pages url' w' :
  served url w pages url' w' ->
  forall all_items fuel,
    fetch_pages (length pages + fuel) url all_items w
    = fetch_pages fuel url' (all_items ++ concat pages) w'.
Proof.
  induction 1 as [url w | url w resp data items next w1 pages url' w'
                            Htruthy Hget Hstatus Hjson Hdata Hnext _ IH];
    intros all_items fuel.
  - cbn [length concat Nat.add]. now rewrite app_nil_r.
  - cbn [length Nat.add fetch_pages].
    rewrite Htruthy, Hget, Hstatus, Hjson, Hdata.
    cbn [Z.eqb Pos.eqb py_iter]. rewrite Hnext, IH.
    cbn [concat]. now rewrite app_assoc.
Qed.

(** X11: when a page answered with status 200 has a body that is not
    JSON, or not an object, or whose [data] cannot be iterated over,
    pagination ends there and the items of the pages before are returned. *)
Theorem fetch_all_data_stops_at_bad_page (initial_url : str) (w w' w'' : W)
  (pages : list (list json)) (url' : json) (fuel : nat) :
  served (JStr initial_url) w pages url' w' ->
  breaks url' w' w'' ->
  length pages < fuel ->
  fetch_all_data fuel initial_url w = (Some (concat pages), w'').
Proof.
  intros Hserved Hbreak Hfuel. unfold fetch_all_data.
  replace fuel with (length pages + S (fuel - S (length pages))) by lia.
  rewrite (fetch_pages_resume _ _ _ _ _ Hserved). cbn [app fetch_pages].
  destruct Hbreak as [url w0 resp e w1 Htruthy Hget Hstatus Hjson
                     | url w0 resp data w1 Htruthy Hget Hstatus Hjson Hobj
                     | url w0 resp data items w1 Htruthy Hget Hstatus Hjson
                         Hdata Hiter];
    rewrite Htruthy, Hget, Hstatus, Hjson; cbn [Z.eqb Pos.eqb].
  - reflexivity.
  - destruct data; try reflexivity. now destruct (Hobj kv).
  - now rewrite Hdata, Hiter.
Qed.

(** X12: when, in every state of the world that the loop can reach, the
    server answers a cursor with a page that names the same cursor as the
    next page, the loop does not end, whatever the number of iterations
    allowed. *)
Theorem self_linked_page_never_ends (url : json) (reachable : W -> Prop) :
  truthy url = true ->
  (forall w, reachable w ->
     exists resp data items l w',
       requests_get url w = (Ok resp, w')
       /\ status_code resp = 200%Z
       /\ json_body resp = Ok data
       /\ dict_get data (lit "data") (JArr []) = Some items
       /\ py_iter items = Some l
       /\ dict_get data (lit "next_page_url") JNull = Some url
       /\ reachable w') ->
  forall fuel all_items w,
    reachable w -> fst (fetch_pages fuel url all_items w) = None.
Proof.
  intros Htruthy Hlinks.
  induction fuel as [|fuel IH]; intros all_items w Hw; cbn [fetch_pages];
    rewrite Htruthy; [reflexivity|].
  destruct (Hlinks w Hw)
    as (resp & data & items & l & w' & Hget & Hstatus & Hjson & Hdata
        & Hiter & Hnext & Hw').
  rewrite Hget, Hstatus, Hjson, Hdata, Hiter. cbn [Z.eqb Pos.eqb].
  rewrite Hnext. now apply IH.
Qed.

End MorePagination.

(** ** More on downloads *)

Section MoreDownload.

Context {W : Type} `{World W}.

Variables (item_data : json) (zip_dir bps_dir : str).

(** X13: a download answered with a status other than 200 and 403 yields
    a failed outcome whose error is [HTTP] followed by the status; nothing
    is saved. *)
Theorem other_status_outcome (url : str) (w w1 : W) (resp : response) :
  requests_get (JStr url) w = (Ok resp, w1) ->
  status_code resp <> 403%Z ->
  status_code resp <> 200%Z ->
  download_and_extract_bps item_data (JStr url) zip_dir bps_dir w =
    ({| success := false;
        download_success := false;
        bps_count := 0;
        bps_files := [];
        error := Some (lit "HTTP " ++ str_of_int (status_code resp));
        requires_login := false |}, w1).
Proof.
  intros Hget H403 H200. unfold download_and_extract_bps. rewrite Hget.
  apply Z.eqb_neq in H403, H200. now rewrite H403, H200.
Qed.

(** X14: when the request raises, or the body cannot be saved after a
    status 200, the outcome is a failed download whose error is
    [Processing error:] followed by the text of the exception. *)
Theorem transport_failure_outcome (url : str) (w w' : W) (e : exn) :
  (requests_get (JStr url) w = (Raise e, w')
   \/ exists resp w1,
        requests_get (JStr url) w = (Ok resp, w1)
        /\ status_code resp = 200%Z
        /\ save_stream (zip_path_of zip_dir url) w1 = (Raise e, w')) ->
  download_and_extract_bps item_data (JStr url) zip_dir bps_dir w =
    ({| success := false;
        download_success := false;
        bps_count := 0;
        bps_files := [];
        error := Some (lit "Processing error: " ++ exn_str e);
        requires_login := false |}, w').
Proof.
  unfold download_and_extract_bps.
  intros [Hget | (resp & w1 & Hget & Hstatus & Hsave)]; rewrite Hget.
  - reflexivity.
  - rewrite Hstatus. cbn [Z.eqb Pos.eqb negb].
    fold (decoded_filename_of url). fold (zip_path_of zip_dir url).
    now rewrite Hsave.
Qed.

(** X15: a download URL that is not a string yields a failed outcome that
    names the type of the value, without any request being made. *)
Theorem url_not_a_string_outcome (download_url : json) (w : W) :
  (forall url, download_url <> JStr url) ->
  download_and_extract_bps item_data download_url zip_dir bps_dir w =
    ({| success := false;
        download_success := false;
        bps_count := 0;
        bps_files := [];
        error :=
          Some (lit "Processing error: '" ++ type_name download_url
                ++ lit "' object has no attribute 'split'");
        requires_login := false |}, w).
Proof.
  intros Hnot. unfold download_and_extract_bps.
  destruct download_url; try reflexivity. now destruct (Hnot s).
Qed.

Lemma extract_members_app single base_name decoded zip_path done :
  forall rest files w contents w1,
    extracted single base_name decoded zip_path bps_dir done w contents w1 ->
    extract_members single base_name decoded zip_path bps_dir
      (done ++ rest) files w
    = extract_members single base_name decoded zip_path bps_dir rest
        (files ++ paths_of single base_name decoded bps_dir contents) w1.
Proof.
  induction done as [|m done IH]; intros rest files w contents w1 Hrun;
    inversion Hrun; subst.
  - cbn. now rewrite app_nil_r.
  - cbn [app extract_members].
    match goal with
    | Hr : zip_read _ _ _ = _, Hw : write_file _ _ _ = _ |- _ =>
        rewrite Hr, Hw
    end.
    match goal with
    | Hx : extracted _ _ _ _ _ done _ _ _ |- _ => rewrite (IH _ _ _ _ _ Hx)
    end.
    cbn [paths_of map]. now rewrite <- app_assoc.
Qed.

(** X16: when reading or writing a member raises, the outcome keeps the
    paths of the members written before it, with a count of zero and
    success false, download-success true, and the error of the
    exception. *)
Theorem interrupted_extraction_outcome (url : str) (w w2 w3 w4 w5 : W)
  (namelist done rest : list str) (failing : str)
  (contents : list (list byte)) (e : exn) :
  downloaded_in zip_dir url w w2 ->
  zip_namelist (zip_path_of zip_dir url) w2 = (Ok namelist, w3) ->
  filter is_bps_member namelist = done ++ failing :: rest ->
  let single := Nat.eqb (length (done ++ failing :: rest)) 1 in
  extracted single (base_name_of item_data url) (decoded_filename_of url)
    (zip_path_of zip_dir url) bps_dir done w3 contents w4 ->
  member_fails single (base_name_of item_data url) (decoded_filename_of url)
    (zip_path_of zip_dir url) bps_dir failing w4 e w5 ->
  download_and_extract_bps item_data (JStr url) zip_dir bps_dir w =
    ({| success := false;
        download_success := true;
        bps_count := 0;
        bps_files :=
          paths_of single (base_name_of item_data url)
            (decoded_filename_of url) bps_dir contents;
        error := Some (extraction_error e);
        requires_login := false |}, w5).
Proof.
  intros Hdl Hopen Hmembers single Hdone Hfail.
  rewrite (download_after_save _ _ _ _ _ _ Hdl). cbn zeta.
  rewrite Hopen, Hmembers. fold single.
  destruct (done ++ failing :: rest) as [|m ms] eqn:E;
    [now destruct done|].
  rewrite <- E, (extract_members_app _ _ _ _ _ _ _ _ _ _ Hdone).
  cbn [extract_members app].
  destruct Hfail as [v e' v' Hread | v content v1 e' v' Hread Hwrite].
  - now rewrite Hread.
  - now rewrite Hread, Hwrite.
Qed.

(** X17: whatever the arguments and the world, an outcome is successful
    exactly when it has no error; a successful one is flagged downloaded
    and counts its paths; an access-denied one carries the login message;
    one that is not flagged downloaded has no path, and one that is not
    successful has a count of zero. *)
Theorem outcome_invariants (download_url : json) (w : W) :
  let r :=
    fst (download_and_extract_bps item_data download_url zip_dir bps_dir w) in
  (success r = true <-> error r = None)
  /\ (success r = true ->
      download_success r = true /\ bps_count r = length (bps_files r))
  /\ (requires_login r = true ->
      error r = Some (lit "Requires login (age verification)"))
  /\ (download_success r = false -> bps_files r = [])
  /\ (success r = false -> bps_count r = 0).
Proof.
  unfold download_and_extract_bps.
  destruct download_url; cbn; try now (repeat (split || intro)).
  destruct (requests_get _ w) as [[resp|e] w1]; cbn;
    try now (repeat (split || intro)).
  destruct (status_code resp =? 403)%Z; cbn;
    [now (repeat (split || intro))|].
  destruct (status_code resp =? 200)%Z; cbn;
    try now (repeat (split || intro)).
  destruct (save_stream _ w1) as [[[]|e] w2]; cbn;
    try now (repeat (split || intro)).
  destruct (zip_namelist _ w2) as [[names|e] w3]; cbn;
    try now (repeat (split || intro)).
  destruct (filter is_bps_member names) as [|m ms];
    cbn -[extract_members]; [now (repeat (split || intro))|].
  match goal with
  | |- context [extract_members ?a ?b ?c ?d ?e ?f ?g ?h] =>
      destruct (extract_members a b c d e f g h) as [[[[]|e'] files] w4]
  end; cbn; now (repeat (split || intro)).
Qed.

End MoreDownload.


(** ** More on patching *)

Lemma last_segment_no_sep sep s :
  existsb (N.eqb sep) (last_segment sep s) = false.
Proof.
  induction s as [|c s IH]; [reflexivity|]. cbn [last_segment].
  destruct (c =? sep)%N eqn:Hc; [exact IH|].
  destruct (existsb (N.eqb sep) s) eqn:Hs; [exact IH|].
  cbn [existsb]. now rewrite N.eqb_sym, Hc, Hs.
Qed.

Lemma last_segment_after_sep sep x b :
  existsb (N.eqb sep) b = false -> last_segment sep (x ++ sep :: b) = b.
Proof.
  intros Hb.
  assert (Hid : last_segment sep b = b).
  { destruct b as [|c b]; [reflexivity|]. cbn [last_segment].
    cbn [existsb] in Hb. apply orb_false_elim in Hb as [Hc Hb].
    now rewrite N.eqb_sym, Hc, Hb. }
  induction x as [|c x IH]; cbn [app last_segment].
  - now rewrite N.eqb_refl.
  - destruct (c =? sep)%N; [exact IH|].
    rewrite existsb_app. cbn [existsb]. rewrite N.eqb_refl.
    now rewrite orb_true_r.
Qed.

Lemma basename_join a b :
  existsb (N.eqb 47%N) b = false -> OsPath.basename (OsPath.join a b) = b.
Proof.
  intros Hb. unfold OsPath.basename, OsPath.join.
  assert (Hstart : starts_with [47%N] b = false).
  { destruct b as [|c b]; [reflexivity|]. cbn [existsb] in Hb.
    apply orb_false_elim in Hb as [Hc _]. cbn [starts_with].
    now rewrite Hc. }
  rewrite Hstart. destruct a as [|c a].
  - destruct b as [|c b]; [reflexivity|]. cbn [app last_segment].
    cbn [existsb] in Hb. apply orb_false_elim in Hb as [Hc Hb].
    now rewrite N.eqb_sym, Hc, Hb.
  - destruct (ends_with (c :: a) [47%N]) eqn:He.
    + apply ends_with_iff in He as [stem ->]. rewrite <- app_assoc.
      now apply last_segment_after_sep.
    + now apply last_segment_after_sep.
Qed.

Lemma replace_scan_chars old new c s :
  forall skip, In c (replace_scan old new skip s) -> In c s \/ In c new.
Proof.
  induction s as [|a s IH]; intros skip; cbn [replace_scan]; [intros []|].
  destruct skip as [|k].
  - destruct (starts_with old (a :: s)).
    + intros Hin. apply in_app_or in Hin as [Hin|Hin]; [now right|].
      destruct (IH _ Hin); [left; now right | now right].
    + intros [->|Hin]; [left; now left|].
      destruct (IH _ Hin); [left; now right | now right].
  - intros Hin. destruct (IH _ Hin); [left; now right | now right].
Qed.

Lemma replace_keeps_no_sep s old new :
  old <> [] ->
  existsb (N.eqb 47%N) s = false ->
  existsb (N.eqb 47%N) new = false ->
  existsb (N.eqb 47%N) (replace s old new) = false.
Proof.
  intros Hold Hs Hnew. unfold replace.
  destruct old as [|o old']; [congruence|].
  destruct (existsb (N.eqb 47%N) (replace_scan (o :: old') new 0 s)) eqn:E;
    [|reflexivity].
  apply existsb_exists in E as (c & Hin & Hc). apply N.eqb_eq in Hc. subst c.
  destruct (replace_scan_chars _ _ _ _ _ Hin) as [Hin'|Hin'].
  - assert (existsb (N.eqb 47%N) s = true)
      by (apply existsb_exists; exists 47%N; now rewrite N.eqb_refl).
    congruence.
  - assert (existsb (N.eqb 47%N) new = true)
      by (apply existsb_exists; exists 47%N; now rewrite N.eqb_refl).
    congruence.
Qed.

Lemma replace_absent s old new :
  old <> [] -> find old s = None -> replace s old new = s.
Proof.
  intros Hold. unfold replace. destruct old as [|o old']; [congruence|].
  induction s as [|c s IH]; [reflexivity|]. cbn [find replace_scan].
  destruct (starts_with (o :: old') (c :: s)); [discriminate|].
  destruct (find (o :: old') s); [discriminate|]. intros _.
  now rewrite IH.
Qed.

(** X18: the output path of the patch command is the patched-output
    directory joined with the output file name, which holds no path
    separator and is the base name of the output path; when the patch file
    name does not contain [.bps] the output file has the same name as the
    patch. *)
Theorem patch_output_in_patched_dir
  (bps_path patched_dir flips_path clean_rom : str) :
  let output_filename :=
    replace (OsPath.basename bps_path) (lit ".bps") (lit ".smc") in
  let output_path :=
    nth 4 (patch_command bps_path patched_dir flips_path clean_rom) [] in
  output_path = OsPath.join patched_dir output_filename
  /\ existsb (N.eqb 47%N) output_filename = false
  /\ OsPath.basename output_path = output_filename
  /\ (contains (OsPath.basename bps_path) (lit ".bps") = false ->
      output_filename = OsPath.basename bps_path).
Proof.
  cbn zeta. unfold patch_command. cbn [nth].
  assert (Hname :
    existsb (N.eqb 47%N)
      (replace (OsPath.basename bps_path) (lit ".bps") (lit ".smc")) = false).
  { apply replace_keeps_no_sep; [discriminate | | reflexivity].
    apply last_segment_no_sep. }
  repeat split.
  - exact Hname.
  - now apply basename_join.
  - unfold contains. intros Hnone. apply replace_absent; [discriminate|].
    now destruct (find (lit ".bps") (OsPath.basename bps_path)).
Qed.

Section MoreLoop.

Context {W : Type} `{World W}.

Variables (zip_dir bps_dir patched_dir flips clean_rom : str).

(** X19: the two counters of the patch loop only grow, and together they
    grow by the number of files. *)
Theorem patch_files_accounts_for_every_file (files : list str) :
  forall ok failed w,
    let '(ok', failed', _) :=
      patch_files files patched_dir flips clean_rom ok failed w in
    ok' + failed' = ok + failed + length files
    /\ ok <= ok' /\ failed <= failed'.
Proof.
  induction files as [|f files IH]; intros ok failed w; cbn [patch_files].
  - cbn. lia.
  - destruct (patch_bps_file f patched_dir flips clean_rom w)
      as [[[] log] w1].
    + specialize (IH (ok + 1) failed w1).
      destruct (patch_files files patched_dir flips clean_rom (ok + 1)
                  failed w1) as [[ok' failed'] w2].
      cbn [length]. lia.
    + specialize (IH ok (failed + 1) w1).
      destruct (patch_files files patched_dir flips clean_rom ok
                  (failed + 1) w1) as [[ok' failed'] w2].
      cbn [length]. lia.
Qed.

(** The count of an outcome is zero or the number of its paths. *)
Lemma outcome_count_bound item download_url w :
  let r :=
    fst (download_and_extract_bps item download_url zip_dir bps_dir w) in
  bps_count r <= length (bps_files r).
Proof.
  unfold download_and_extract_bps.
  destruct download_url; cbn; try lia.
  destruct (requests_get _ w) as [[resp|e] w1]; cbn; try lia.
  destruct (status_code resp =? 403)%Z; cbn; try lia.
  destruct (status_code resp =? 200)%Z; cbn; try lia.
  destruct (save_stream _ w1) as [[[]|e] w2]; cbn; try lia.
  destruct (zip_namelist _ w2) as [[names|e] w3]; cbn; try lia.
  destruct (filter is_bps_member names) as [|m ms];
    cbn -[extract_members]; [lia|].
  match goal with
  | |- context [extract_members ?a ?b ?c ?d ?e ?f ?g ?h] =>
      destruct (extract_members a b c d e f g h) as [[[[]|e'] files] w4]
  end; cbn; lia.
Qed.

Lemma process_item_consistent item stats stats' w w' :
  process_item zip_dir bps_dir patched_dir flips clean_rom stats item w
  = (Some stats', w') ->
  consistent stats -> consistent stats'.
Proof.
  unfold process_item, consistent.
  destruct (dict_get item (lit "name") unknown) as [hack_name|];
    [|discriminate].
  destruct (dict_get item (lit "download_url") JNull) as [download_url|];
    [|discriminate].
  destruct (truthy download_url); cbn [negb].
  2: { intros Heq. now injection Heq as <- <-. }
  destruct (dict_get item (lit "authors") (JArr [])) as [authors|];
    [|discriminate].
  destruct (author_names_of authors) as [author_names|]; [|discriminate].
  pose proof (outcome_count_bound item download_url w) as Hbound.
  cbn zeta in Hbound.
  destruct (download_and_extract_bps item download_url zip_dir bps_dir w)
    as [result w1]. cbn [fst] in Hbound.
  destruct (requires_login result).
  { intros Heq. injection Heq as <- <-. cbn. rewrite length_app. cbn. lia. }
  destruct (download_success result); cbn [negb].
  2: { intros Heq. injection Heq as <- <-. cbn. rewrite length_app.
       cbn. lia. }
  pose proof (patch_files_count patched_dir flips clean_rom
                (bps_files result) 0 0 w1) as Hcount.
  destruct (patch_files (bps_files result) patched_dir flips clean_rom 0 0 w1)
    as [[ok failed] w2].
  intros Heq. injection Heq as <- <-. cbn. lia.
Qed.

(** X20: a partition processed to its end keeps the statistics
    consistent: the total is the sum of the three classes, the two lists
    have as many entries as their counters say, and the patches applied or
    failed are at least as many as the patches counted as extracted. *)
Theorem process_items_consistent (all_items : list json) :
  forall stats stats' w w',
    process_items zip_dir bps_dir patched_dir flips clean_rom stats
      all_items w = (Some stats', w') ->
    consistent stats -> consistent stats'.
Proof.
  induction all_items as [|item rest IH]; intros stats stats' w w' Hrun Hinv;
    cbn [process_items] in Hrun.
  - now injection Hrun as <- <-.
  - destruct (process_item zip_dir bps_dir patched_dir flips clean_rom stats
                item w) as [[stats1|] w1] eqn:Hitem; [|discriminate].
    exact (IH _ _ _ _ Hrun (process_item_consistent _ _ _ _ _ Hitem Hinv)).
Qed.

(** X21: the items without a download URL change nothing: the run on a
    list of items is the run on the list without them, statistics and
    world alike. *)
Theorem skipped_items_leave_no_trace (all_items : list json) :
  forall stats w,
    process_items zip_dir bps_dir patched_dir flips clean_rom stats
      all_items w
    = process_items zip_dir bps_dir patched_dir flips clean_rom stats
        (filter is_processed all_items) w.
Proof.
  induction all_items as [|item rest IH]; intros stats w; [reflexivity|].
  cbn [filter]. destruct (is_processed item) eqn:Hp.
  - cbn [process_items].
    destruct (process_item zip_dir bps_dir patched_dir flips clean_rom stats
                item w) as [[stats1|] w1]; [apply IH | reflexivity].
  - cbn [process_items]. unfold is_processed in Hp. unfold process_item.
    destruct item; cbn [dict_get] in *; try discriminate.
    rewrite Hp. cbn [negb]. apply IH.
Qed.

(** X22: a list holding an item that is not an object, or an object with
    a download URL whose authors cannot be joined, is never processed to
    its end. *)
Theorem malformed_item_aborts_the_run (all_items : list json)
  (item : json) :
  In item all_items ->
  aborting item ->
  forall stats w,
    fst (process_items zip_dir bps_dir patched_dir flips clean_rom stats
           all_items w) = None.
Proof.
  intros Hin Hab.
  assert (Hitem : forall stats w,
    process_item zip_dir bps_dir patched_dir flips clean_rom stats item w
    = (None, w)).
  { intros stats w. unfold process_item.
    destruct Hab as [Hnot | (kv & download_url & authors
                             & -> & Hurl & Htruthy & Hauthors & Hnames)].
    - destruct item; try reflexivity. now destruct (Hnot kv).
    - cbn [dict_get] in *. injection Hurl as Hurl. injection Hauthors as Ha.
      now rewrite Hurl, Htruthy, Ha, Hnames. }
  induction all_items as [|item' rest IH]; [destruct Hin|].
  intros stats w. cbn [process_items].
  destruct Hin as [->|Hin].
  - now rewrite Hitem.
  - destruct (process_item zip_dir bps_dir patched_dir flips clean_rom stats
                item' w) as [[stats1|] w1]; [now apply IH | reflexivity].
Qed.

(** X23: an item whose download URL counts as true but is not a string,
    and whose authors can be joined, is counted as a failed download,
    listed with an error naming the type, and the world is left
    untouched. *)
Theorem item_with_odd_url_counts_as_failed
  (item hack_name download_url authors : json) (author_names : str)
  (stats : Stats.t) (w : W) :
  dict_get item (lit "name") unknown = Some hack_name ->
  dict_get item (lit "download_url") JNull = Some download_url ->
  truthy download_url = true ->
  (forall url, download_url <> JStr url) ->
  dict_get item (lit "authors") (JArr []) = Some authors ->
  author_names_of authors = Some author_names ->
  process_item zip_dir bps_dir patched_dir flips clean_rom stats item w =
    (Some (Stats.append_failed
             (Stats.FailedHack hack_name
                (Some (lit "Processing error: '" ++ type_name download_url
                       ++ lit "' object has no attribute 'split'")))
             (Stats.add_failed_downloads 1 (Stats.add_total_hacks 1 stats))),
     w).
Proof.
  intros Hname Hurl Htruthy Hnot Hauthors Hnames. unfold process_item.
  rewrite Hname, Hurl, Htruthy, Hauthors, Hnames. cbn [negb].
  unfold download_and_extract_bps.
  destruct download_url; try reflexivity. now destruct (Hnot s).
Qed.

End MoreLoop.

(** ** The staging path *)

(** X24: when the last segment of the URL holds no percent sign, the
    archive is saved in the zip directory under that segment. *)
Theorem zip_path_in_zip_dir (zip_dir url : str) :
  existsb (N.eqb 37%N) (last_segment 47%N url) = false ->
  zip_path_of zip_dir url = OsPath.join zip_dir (last_segment 47%N url)
  /\ OsPath.basename (zip_path_of zip_dir url) = last_segment 47%N url.
Proof.
  intros Hplain. unfold zip_path_of, decoded_filename_of, UrlLib.unquote.
  rewrite Hplain. split; [reflexivity|].
  apply basename_join, last_segment_no_sep.
Qed.


(** ** The exact names of the members *)

(** X25: when the decoded archive name ends with its only [.zip] and the
    base name ends with its only occurrence of the decoded archive name, a
    single member is named after the base name with [.zip] turned into
    [.bps], and one of several has an underscore and its short hash
    between the stem and [.bps]. *)
Theorem member_names_exact (metadata stem : str) (bps_content : list byte) :
  let decoded := stem ++ lit ".zip" in
  let base_name := metadata ++ decoded in
  find (lit ".zip") decoded = Some (length stem) ->
  find decoded base_name = Some (length metadata) ->
  new_bps_name true base_name decoded bps_content
  = metadata ++ stem ++ lit ".bps"
  /\ new_bps_name false base_name decoded bps_content
     = metadata ++ stem ++ lit "_" ++ get_short_hash bps_content 6
       ++ lit ".bps".
Proof.
  cbn zeta. intros Hzip Hbase. unfold new_bps_name.
  assert (Hdecoded : stem ++ lit ".zip" <> []) by now destruct stem.
  rewrite !(replace_final_suffix stem (lit ".zip")); try discriminate;
    try exact Hzip.
  now rewrite !(replace_final_suffix metadata (stem ++ lit ".zip")).
Qed.

(** ** Runs on which the further statements apply *)

Lemma fetch_all_data_stops_at_bad_page_witness :
  fst (@fetch_all_data _ (Sim.world broken_catalog) 2
         (lit "https://catalog.example.net/list") []) =
    Some [item1; item2].
Proof.
  erewrite (@fetch_all_data_stops_at_bad_page _ (Sim.world broken_catalog)
              _ [] _ _ [[item1; item2]]).
  - reflexivity.
  - eapply served_page;
      [run_world | run_world | run_world | run_world | run_world | run_world |].
    apply served_none.
  - eapply breaks_no_json; run_world.
  - cbn. lia.
Defined.

Lemma self_linked_page_never_ends_witness :
  fst (@fetch_all_data _ (Sim.world looping_catalog) 1000
         (lit "https://catalog.example.net/list") []) = None.
Proof.
  unfold fetch_all_data.
  apply (@self_linked_page_never_ends _ (Sim.world looping_catalog)
           (JStr (lit "https://catalog.example.net/list"))
           (fun _ => True)).
  - reflexivity.
  - intros w _. do 5 eexists. repeat split; run_world.
  - exact I.
Defined.

Lemma other_status_outcome_witness :
  @download_and_extract_bps _
    (Sim.world (Sim.archive_world 503 one_patch 0))
    item1 (JStr url1) zip_dir bps_dir [] =
    ({| success := false;
        download_success := false;
        bps_count := 0;
        bps_files := [];
        error := Some (lit "HTTP 503");
        requires_login := false |}, [Sim.Get (JStr url1)]).
Proof.
  rewrite (@other_status_outcome _
             (Sim.world (Sim.archive_world 503 one_patch 0))
             item1 zip_dir bps_dir url1 [] [Sim.Get (JStr url1)]
             (Response 503 (Raise (Error (lit "no JSON body"))))).
  - vm_compute. reflexivity.
  - reflexivity.
  - discriminate.
  - discriminate.
Defined.

Lemma transport_failure_outcome_witness :
  @download_and_extract_bps _ (Sim.world unreachable)
    item1 (JStr url1) zip_dir bps_dir [] =
    ({| success := false;
        download_success := false;
        bps_count := 0;
        bps_files := [];
        error := Some (lit "Processing error: Connection refused");
        requires_login := false |}, [Sim.Get (JStr url1)]).
Proof.
  rewrite (@transport_failure_outcome _ (Sim.world unreachable)
             item1 zip_dir bps_dir url1 [] [Sim.Get (JStr url1)]
             (Error (lit "Connection refused"))).
  - vm_compute. reflexivity.
  - left. reflexivity.
Defined.

Lemma url_not_a_string_outcome_witness :
  @download_and_extract_bps _ (Sim.world unreachable)
    numbered (JInt 5) zip_dir bps_dir [] =
    ({| success := false;
        download_success := false;
        bps_count := 0;
        bps_files := [];
        error :=
          Some (lit "Processing error: 'int' object has no attribute 'split'");
        requires_login := false |}, []).
Proof.
  rewrite (@url_not_a_string_outcome _ (Sim.world unreachable)).
  - reflexivity.
  - discriminate.
Defined.

Lemma interrupted_extraction_outcome_witness :
  fst (@download_and_extract_bps _
         (Sim.world (Sim.archive_world 200 second_corrupt 0))
         item1 (JStr url1) zip_dir bps_dir []) =
    {| success := false;
       download_success := true;
       bps_count := 0;
       bps_files :=
         [lit "out/bps/First Hack - Ann - Kaizo - Newcomer - Unknown - first hack_0cb988.bps"];
       error := Some (lit "Invalid ZIP file");
       requires_login := false |}.
Proof.
  etransitivity.
  - eapply (f_equal fst).
    eapply (@interrupted_extraction_outcome _
              (Sim.world (Sim.archive_world 200 second_corrupt 0))
              item1 zip_dir bps_dir url1 [] _ _ _ _ _
              [lit "a.bps"] [] (lit "b.bps")).
    + run_download.
    + run_world.
    + vm_compute. reflexivity.
    + run_extraction.
    + apply read_fails. run_world.
  - vm_compute. reflexivity.
Defined.

Lemma process_items_consistent_witness :
  exists stats,
    fst (@process_items _ first_then_denied zip_dir bps_dir patched_dir flips
           clean_rom Stats.initial [item1; item2] []) = Some stats
    /\ consistent stats.
Proof.
  eexists. split; [vm_compute; reflexivity|].
  eapply (@process_items_consistent _ first_then_denied zip_dir bps_dir
            patched_dir flips clean_rom [item1; item2] Stats.initial _ [] _).
  - vm_compute. reflexivity.
  - unfold consistent. cbn. lia.
Defined.

Lemma malformed_item_aborts_the_run_witness :
  fst (@process_items _ first_then_denied zip_dir bps_dir patched_dir flips
         clean_rom Stats.initial [item1; anonymous; item2] []) = None.
Proof.
  apply (@malformed_item_aborts_the_run _ first_then_denied zip_dir bps_dir
           patched_dir flips clean_rom [item1; anonymous; item2] anonymous).
  - right. now left.
  - right. do 3 eexists. repeat split; reflexivity.
Defined.

Lemma item_with_odd_url_counts_as_failed_witness :
  @process_item _ (Sim.world unreachable) zip_dir bps_dir patched_dir flips
    clean_rom Stats.initial numbered [] =
    (Some {| Stats.total_hacks := 1;
             Stats.downloaded := 0;
             Stats.failed_downloads := 1;
             Stats.requires_login := 0;
             Stats.total_bps := 0;
             Stats.patched := 0;
             Stats.failed_patches := 0;
             Stats.login_required_hacks := [];
             Stats.failed_hacks :=
               [Stats.FailedHack (JStr (lit "Numbered"))
                  (Some (lit "Processing error: 'int' object has no attribute 'split'"))] |},
     []).
Proof.
  etransitivity.
  - eapply (@item_with_odd_url_counts_as_failed _ (Sim.world unreachable)).
    + reflexivity.
    + reflexivity.
    + reflexivity.
    + discriminate.
    + reflexivity.
    + reflexivity.
  - vm_compute. reflexivity.
Defined.

Lemma all_selects_every_difficulty_witness :
  option_map (map snd)
    (select_endpoints
       (Args.Make true false true false false false false false true)) =
    Some [lit "newcomer"; lit "casual"; lit "intermediate"; lit "advanced";
          lit "expert"; lit "master"; lit "grandmaster"; lit "awaiting"].
Proof.
  rewrite all_selects_every_difficulty; [|reflexivity].
  vm_compute. reflexivity.
Defined.

Lemma composite_name_parts_witness :
  exists metadata,
    format_filename item1 (lit "first%20hack.zip")
    = metadata ++ lit "first hack.zip"
    /\ Forall (fun c => is_illegal c = false) metadata.
Proof.
  destruct (composite_name_parts item1 (lit "first%20hack.zip")
              (format_filename item1 (lit "first%20hack.zip")))
    as (metadata & Heq & Hlegal & _).
  - vm_compute. reflexivity.
  - exists metadata. split; [exact Heq | exact Hlegal].
Defined.

Lemma fallback_name_is_clean_witness :
  is_clean (format_filename JNull (lit "my%3A_hack%20.zip")) = true
  /\ format_filename JNull (lit "my%3A_hack%20.zip") = lit "my hack .zip".
Proof.
  split.
  - apply fallback_name_is_clean. reflexivity.
  - vm_compute. reflexivity.
Defined.

Lemma empty_authors_show_as_unknown_witness :
  format_filename
    (JObj [(lit "name", JStr (lit "Solo")); (lit "authors", JNull)])
    (lit "solo.zip")
  = lit "Solo - Unknown - Unknown - Unknown - Unknown - solo.zip".
Proof.
  rewrite (empty_authors_show_as_unknown _ JNull _ (Some (lit "Solo"))
             None None None).
  - vm_compute. reflexivity.
  - reflexivity.
  - reflexivity.
  - reflexivity.
  - apply fields_absent. reflexivity.
Defined.

Lemma zip_path_in_zip_dir_witness :
  OsPath.basename (zip_path_of zip_dir url2) = lit "second.zip".
Proof.
  rewrite (proj2 (zip_path_in_zip_dir zip_dir url2 eq_refl)).
  vm_compute. reflexivity.
Defined.

Lemma member_names_exact_witness :
  new_bps_name false
    (lit "First Hack - Ann - Kaizo - Newcomer - Unknown - first hack.zip")
    (lit "first hack.zip") [x01; x02]
  = lit "First Hack - Ann - Kaizo - Newcomer - Unknown - first hack_0cb988.bps".
Proof.
  etransitivity.
  - apply (proj2 (member_names_exact
                    (lit "First Hack - Ann - Kaizo - Newcomer - Unknown - ")
                    (lit "first hack") [x01; x02] eq_refl eq_refl)).
  - vm_compute. reflexivity.
Defined.
